(** * Video acquisition pipeline: detection adapter, capture thread,
      playback session and segmented recorder.

    Shallow embedding of [detection.py], [capture_thread.py],
    [video_player.py], [utils.py] and the recording methods of
    [main_window.py].  External collaborators (OpenCV, the ultralytics
    runtime, Qt) are section variables or explicit inputs; every call a
    method makes to them is recorded in the event list it returns. *)

From Stdlib Require Import ZArith QArith List String Bool Lia.
From stdpp Require Import base tactics option list gmap strings pretty.
Import ListNotations.

Local Set Warnings "-register-all,-clear-no-such-hyp".
Local Open Scope Z_scope.

(** ** Python values and exceptions *)

(** A numpy image: [shape[:2]] is [(rows, cols)], height then width. *)
Record ndarray := Ndarray { rows : nat; cols : nat; pixels : list Z }.

(** Objects other than arrays that callers can pass. *)
Inductive PyObj :=
| PyNone
| PyBool (b : bool)
| PyInt (z : Z)
| PyStr (s : string)
| PyList (items : list PyObj).

(** The [frame] argument: any object, or an [np.ndarray]. *)
Inductive PyVal :=
| Obj (o : PyObj)
| Arr (a : ndarray).

Inductive PyExn :=
| TypeError
| ZeroDivisionError
| AttributeError
| ValueError
| OverflowError
| ExternalError (what : string).

(** Result of a Python expression: a value or a raised exception. *)
Inductive Res (A : Type) :=
| Ok (a : A)
| Raise (e : PyExn).
Arguments Ok {A} a.
Arguments Raise {A} e.

(** [a % b] on Python ints: floor modulo, [ZeroDivisionError] on [b = 0]. *)
Definition py_mod (a b : Z) : Res Z :=
  if b =? 0 then Raise ZeroDivisionError else Ok (a mod b).

(** [float(n)] of a Python int raises [OverflowError] from the first int
    that rounds to [2 ** 1024]; the largest double is [2 ** 1024 - 2 ** 971]. *)
Definition FLOAT_LIMIT : Z := 2 ^ 1024 - 2 ^ 970.

Definition float_of_int_overflows (n : Z) : bool := FLOAT_LIMIT <=? Z.abs n.

(** [isinstance(item, int)]; [bool] is a subclass of [int]. *)
Definition isinstance_int (v : PyObj) : bool :=
  match v with
  | PyInt _ | PyBool _ => true
  | _ => false
  end.

Definition isinstance_str (v : PyObj) : bool :=
  match v with
  | PyStr _ => true
  | _ => false
  end.

Fixpoint chars (s : string) : list PyObj :=
  match s with
  | EmptyString => []
  | String c r => PyStr (String c EmptyString) :: chars r
  end.

(** [iter(v)]: lists and strings are iterable, the scalars are not. *)
Definition py_iter (v : PyObj) : Res (list PyObj) :=
  match v with
  | PyList items => Ok items
  | PyStr s => Ok (chars s)
  | PyNone | PyBool _ | PyInt _ => Raise TypeError
  end.

(** ** detection.py *)

Module Detection.

(** The fixed working resolution, as [cv2.resize]'s [(width, height)]. *)
Definition WORK_SIZE : nat * nat := (640%nat, 480%nat).

Section Adapter.

(** The loaded YOLO object and the [Results] objects it returns. *)
Variables Model Results : Type.

(** [cv2.resize(frame, dsize)]. *)
Variable cv2_resize : ndarray -> nat * nat -> Res ndarray.
(** [self.model(img, conf=.., classes=.., verbose=False)]. *)
Variable call_model :
  Model -> ndarray -> Q -> PyObj -> Model * Res (list Results).
(** [r.plot()]. *)
Variable plot : Results -> Res ndarray.

Record YoloDetector := mkYoloDetector {
  model : Model;
  frame_count : Z;
  skip_frames : Z;
  last_result : option ndarray
}.

(** [__init__] once the model is loaded. *)
Definition init (m : Model) (skip : Z) : YoloDetector :=
  {| model := m; frame_count := 0; skip_frames := skip;
     last_result := None |}.

Definition set_frame_count (self : YoloDetector) (n : Z) :=
  {| model := model self; frame_count := n;
     skip_frames := skip_frames self; last_result := last_result self |}.
Definition set_model (self : YoloDetector) (m : Model) :=
  {| model := m; frame_count := frame_count self;
     skip_frames := skip_frames self; last_result := last_result self |}.
Definition set_last_result (self : YoloDetector) (r : option ndarray) :=
  {| model := model self; frame_count := frame_count self;
     skip_frames := skip_frames self; last_result := r |}.

(** Calls made to the collaborators, with what they answered. *)
Inductive Event :=
| Resize (src : ndarray) (dsize : nat * nat) (out : Res ndarray)
| Infer (img : ndarray) (conf : Q) (classes : PyObj)
        (out : Res (list Results))
| Plot (r : Results) (out : Res ndarray).

(** Lines 49-54: keep [classes] only when it is [None] or an iterable
    of ints. *)
Definition check_classes (classes : PyObj) : Res PyObj :=
  match classes with
  | PyNone => Ok PyNone
  | _ =>
    if isinstance_str classes then Ok PyNone
    else match py_iter classes with
         | Raise e => Raise e
         | Ok items =>
           if forallb isinstance_int items then Ok classes else Ok PyNone
         end
  end.

Definition Reply : Type := YoloDetector * Res (option ndarray) * list Event.

(** Lines 49-79, reached when the call is not a skipped one. *)
Definition run_inference (self : YoloDetector) (frame : ndarray)
    (conf_thres : Q) (classes : PyObj) : Reply :=
  match check_classes classes with
  | Raise e => (self, Raise e, [])
  | Ok classes =>
    match cv2_resize frame WORK_SIZE with
    | Raise e => (self, Raise e, [Resize frame WORK_SIZE (Raise e)])
    | Ok resized_frame =>
      let ev1 := Resize frame WORK_SIZE (Ok resized_frame) in
      let '(m, out) := call_model (model self) resized_frame conf_thres classes in
      let self := set_model self m in
      let ev2 := Infer resized_frame conf_thres classes out in
      match out with
      | Raise e => (self, Ok (Some frame), [ev1; ev2])
      | Ok results =>
        match results with
        | r :: _ =>
          match plot r with
          | Raise e => (self, Raise e, [ev1; ev2; Plot r (Raise e)])
          | Ok annotated =>
            (set_last_result self (Some annotated), Ok (Some annotated),
             [ev1; ev2; Plot r (Ok annotated)])
          end
        | [] => (set_last_result self (Some frame), Ok (Some frame), [ev1; ev2])
        end
      end
    end
  end.

Definition detect_and_plot (self : YoloDetector) (frame : PyVal)
    (conf_thres : Q) (classes : PyObj) : Reply :=
  match frame with
  | Obj _ => (self, Ok None, [])
  | Arr frame =>
    let self := set_frame_count self (frame_count self + 1) in
    match py_mod (frame_count self) (skip_frames self + 1) with
    | Raise e => (self, Raise e, [])
    | Ok m =>
      if negb (m =? 1) then
        match last_result self with
        | Some cached => (self, Ok (Some cached), [])
        | None => (self, Ok (Some frame), [])
        end
      else run_inference self frame conf_thres classes
    end
  end.

(** *** Sequences of calls

    Callers wrap each call in [try/except], so a raising call does not
    end the sequence. *)

Record Call := mkCall {
  arg_frame : PyVal;
  arg_conf : Q;
  arg_classes : PyObj
}.

Record CallLog := mkCallLog {
  call : Call;
  outcome : Res (option ndarray);
  events : list Event
}.

Fixpoint run_calls (self : YoloDetector) (calls : list Call)
    : YoloDetector * list CallLog :=
  match calls with
  | [] => (self, [])
  | c :: rest =>
    let '(self1, out, ev) :=
      detect_and_plot self (arg_frame c) (arg_conf c) (arg_classes c) in
    let '(self2, logs) := run_calls self1 rest in
    (self2, mkCallLog c out ev :: logs)
  end.

Definition is_infer (e : Event) : bool :=
  match e with Infer _ _ _ _ => true | _ => false end.
Definition is_infer_ok (e : Event) : bool :=
  match e with Infer _ _ _ (Ok _) => true | _ => false end.

(** The model was invoked during this call. *)
Definition ran_inference (log : CallLog) : bool :=
  existsb is_infer (events log).

(** The frame a call handed back after the model answered normally:
    the annotated frame, or the frame itself for an empty answer. *)
Definition inference_result (log : CallLog) : option ndarray :=
  match outcome log with
  | Ok (Some a) => if existsb is_infer_ok (events log) then Some a else None
  | _ => None
  end.

(** Most recent [inference_result] of a history, oldest call first. *)
Fixpoint most_recent_result (history : list CallLog) : option ndarray :=
  match history with
  | [] => None
  | log :: rest =>
    match most_recent_result rest with
    | Some a => Some a
    | None => inference_result log
    end
  end.

(** A call the collaborators accept: the frame is an array that
    [cv2.resize] takes, and [classes] passes the format check. *)
Definition servable (c : Call) : bool :=
  match arg_frame c with
  | Arr f =>
    match cv2_resize f WORK_SIZE, check_classes (arg_classes c) with
    | Ok _, Ok _ => true
    | _, _ => false
    end
  | Obj _ => false
  end.


(** Line 43: the call is served from the cache (or passed through). *)
Definition skipped (self : YoloDetector) : bool :=
  negb ((frame_count self + 1) mod (skip_frames self + 1) =? 1).

(** *** Single calls *)

(** Case analysis on the innermost scrutinee of the goal. *)
Ltac split_reply :=
  repeat match goal with
  | |- context [match ?x with _ => _ end] =>
    lazymatch x with
    | context [match _ with _ => _ end] => fail
    | _ => destruct x eqn:?
    end
  end.

(** Which element of a short event list a membership hypothesis means. *)
Ltac which_event :=
  repeat match goal with
  | H : In _ (_ :: _) |- _ => destruct H
  | H : In _ [] |- _ => destruct H
  | H : _ \/ _ |- _ => destruct H
  | H : False |- _ => destruct H
  end.

Lemma run_inference_counters self frame conf classes :
  let '(self', _, _) := run_inference self frame conf classes in
  frame_count self' = frame_count self /\ skip_frames self' = skip_frames self.
Proof. unfold run_inference. split_reply; simpl; auto. Qed.

Lemma detect_and_plot_counters self frame conf classes :
  let '(self', _, _) := detect_and_plot self (Arr frame) conf classes in
  frame_count self' = frame_count self + 1
  /\ skip_frames self' = skip_frames self.
Proof.
  unfold detect_and_plot.
  destruct (py_mod _ _) as [m|e]; [|simpl; auto].
  destruct (negb _).
  - destruct (last_result _); simpl; auto.
  - pose proof (run_inference_counters
      (set_frame_count self (frame_count self + 1)) frame conf classes) as H.
    destruct (run_inference _ _ _ _) as [[s o] ev]. exact H.
Qed.

Lemma detect_and_plot_skipped self frame conf classes :
  skip_frames self + 1 <> 0 -> skipped self = true ->
  detect_and_plot self (Arr frame) conf classes =
    (set_frame_count self (frame_count self + 1),
     Ok (Some (default frame (last_result self))), []).
Proof.
  intros Hnz Hs. unfold detect_and_plot, py_mod, skipped in *. simpl.
  destruct (Z.eqb_spec (skip_frames self + 1) 0) as [|_]; [contradiction|].
  rewrite Hs. destruct (last_result self); reflexivity.
Qed.

Lemma detect_and_plot_triggered self frame conf classes :
  skip_frames self + 1 <> 0 -> skipped self = false ->
  detect_and_plot self (Arr frame) conf classes =
    run_inference (set_frame_count self (frame_count self + 1))
      frame conf classes.
Proof.
  intros Hnz Hs. unfold detect_and_plot, py_mod, skipped in *. simpl.
  destruct (Z.eqb_spec (skip_frames self + 1) 0) as [|_]; [contradiction|].
  rewrite Hs. reflexivity.
Qed.

(** C10. A [frame] that is [None] or not an [np.ndarray] makes
    [detect_and_plot] return [None]: the frame counter, the cached result
    and the model are untouched, and no collaborator is called. *)
Theorem rejects_non_array self (o : PyObj) conf classes :
  detect_and_plot self (Obj o) conf classes = (self, Ok None, []).
Proof. reflexivity. Qed.





(** *** Call sequences *)

Definition cache_after (prior : option ndarray) (history : list CallLog)
    : option ndarray :=
  match most_recent_result history with
  | Some a => Some a
  | None => prior
  end.

(** The cached result changes exactly when a call completes inference. *)
Lemma last_result_step self frame conf classes :
  let '(self', out, ev) := detect_and_plot self frame conf classes in
  last_result self' =
    cache_after (last_result self)
      [mkCallLog (mkCall frame conf classes) out ev].
Proof.
  unfold cache_after, most_recent_result, inference_result.
  destruct frame as [o|f]; [reflexivity|].
  unfold detect_and_plot, run_inference.
  split_reply; simpl in *; congruence.
Qed.

Lemma servable_array c :
  servable c = true -> exists f, arg_frame c = Arr f.
Proof. unfold servable. destruct (arg_frame c); [discriminate|eauto]. Qed.

(** On a servable call the model is invoked unless the call is skipped. *)
Lemma servable_ran_inference self c :
  skip_frames self + 1 <> 0 -> servable c = true ->
  let '(_, out, ev) :=
    detect_and_plot self (arg_frame c) (arg_conf c) (arg_classes c) in
  ran_inference (mkCallLog c out ev) = negb (skipped self).
Proof.
  intros Hnz Hs. unfold servable in Hs.
  destruct (arg_frame c) as [o|f]; [discriminate|].
  destruct (cv2_resize f WORK_SIZE) as [g|] eqn:Hg; [|discriminate].
  destruct (check_classes (arg_classes c)) as [cls|] eqn:Hc; [|discriminate].
  destruct (skipped self) eqn:Hk.
  - rewrite detect_and_plot_skipped by assumption. reflexivity.
  - rewrite detect_and_plot_triggered by assumption.
    unfold run_inference. rewrite Hc, Hg.
    split_reply; reflexivity.
Qed.


(** What a call that did not invoke the model returns. *)
Lemma run_calls_skipped calls : forall self k log,
  skip_frames self + 1 <> 0 ->
  Forall (fun c => servable c = true) calls ->
  (run_calls self calls).2 !! k = Some log ->
  ran_inference log = false ->
  exists f, arg_frame (call log) = Arr f
    /\ outcome log =
         Ok (Some (default f (cache_after (last_result self)
                                (take k (run_calls self calls).2)))).
Proof.
  induction calls as [|c rest IH]; intros self k log Hnz Hall Hk Hno;
    [discriminate|].
  inversion Hall as [|? ? Hc Hrest]; subst. simpl in *.
  pose proof (servable_ran_inference self c Hnz Hc) as Hrun.
  pose proof (last_result_step self (arg_frame c) (arg_conf c)
                (arg_classes c)) as Hlast.
  destruct (servable_array c Hc) as [f Hf].
  pose proof (detect_and_plot_counters self f (arg_conf c) (arg_classes c))
    as Hcnt.
  pose proof (detect_and_plot_skipped self f (arg_conf c) (arg_classes c) Hnz)
    as Hskip.
  rewrite Hf in *.
  destruct (detect_and_plot _ _ _ _) as [[self1 out] ev].
  destruct Hcnt as [_ Hsk].
  specialize (IH self1).
  destruct (run_calls self1 rest) as [self2 logs]. simpl in *.
  destruct k as [|k]; simpl in *.
  - injection Hk as <-. simpl. exists f. split; [assumption|].
    rewrite Hno in Hrun. symmetry in Hrun. apply negb_false_iff in Hrun.
    specialize (Hskip Hrun). injection Hskip as _ -> _. reflexivity.
  - rewrite Hsk in IH.
    destruct (IH k log Hnz Hrest Hk Hno) as [g [Hg Hout]].
    exists g. split; [assumption|]. rewrite Hout, Hlast.
    unfold cache_after. simpl.
    destruct (most_recent_result (take k logs)); reflexivity.
Qed.

(** *** One call inside a sequence *)

Lemma run_calls_app l1 : forall l2 self,
  run_calls self (l1 ++ l2) =
    ((run_calls (run_calls self l1).1 l2).1,
     (run_calls self l1).2 ++ (run_calls (run_calls self l1).1 l2).2).
Proof.
  induction l1 as [|c l1 IH]; intros l2 self; simpl.
  - destruct (run_calls self l2); reflexivity.
  - destruct (detect_and_plot _ _ _ _) as [[s1 out] ev].
    rewrite IH. destruct (run_calls s1 l1) as [s2 logs1]. simpl.
    destruct (run_calls s2 l2) as [s3 logs2]. reflexivity.
Qed.

Lemma run_calls_length calls : forall self,
  length (run_calls self calls).2 = length calls.
Proof.
  induction calls as [|c rest IH]; intros self; simpl; [reflexivity|].
  destruct (detect_and_plot _ _ _ _) as [[s1 out] ev].
  specialize (IH s1). destruct (run_calls s1 rest) as [s2 logs].
  simpl in *. congruence.
Qed.

(** The [k]-th entry of the log is the answer of [detect_and_plot] in the
    state the first [k] calls left behind; the entries before it are the
    log of those calls. *)
Lemma run_calls_lookup self calls k log :
  (run_calls self calls).2 !! k = Some log ->
  calls !! k = Some (call log)
  /\ take k (run_calls self calls).2 = (run_calls self (take k calls)).2
  /\ exists self',
       detect_and_plot (run_calls self (take k calls)).1
         (arg_frame (call log)) (arg_conf (call log)) (arg_classes (call log))
       = (self', outcome log, events log).
Proof.
  intros Hk.
  assert (Hlt : (k < length calls)%nat).
  { rewrite <- (run_calls_length calls self). eapply lookup_lt_Some; eauto. }
  destruct (lookup_lt_is_Some_2 calls k Hlt) as [c Hc].
  pose proof (run_calls_app (take k calls) (c :: drop (S k) calls) self)
    as Happ.
  rewrite (take_drop_middle calls k c Hc) in Happ.
  assert (Hlen : length (run_calls self (take k calls)).2 = k).
  { rewrite run_calls_length, length_take. lia. }
  cbn [run_calls] in Happ.
  destruct (detect_and_plot (run_calls self (take k calls)).1 _ _ _)
    as [[s1 out] ev] eqn:Hd.
  destruct (run_calls s1 (drop (S k) calls)) as [s2 logs2].
  rewrite Happ in Hk |- *. cbn [fst snd] in *.
  rewrite lookup_app_r in Hk by lia.
  rewrite Hlen, Nat.sub_diag in Hk. injection Hk as <-.
  cbn [call outcome events]. split; [assumption|]. split.
  - apply take_app_length'. congruence.
  - eauto.
Qed.

Lemma run_calls_skip_frames calls : forall self,
  skip_frames (run_calls self calls).1 = skip_frames self.
Proof.
  induction calls as [|c rest IH]; intros self; simpl; [reflexivity|].
  assert (Hsk : skip_frames
            (detect_and_plot self (arg_frame c) (arg_conf c) (arg_classes c)).1.1
          = skip_frames self).
  { destruct (arg_frame c) as [o|f]; [reflexivity|].
    pose proof (detect_and_plot_counters self f (arg_conf c) (arg_classes c))
      as H.
    destruct (detect_and_plot _ _ _ _) as [[s o] ev]. apply H. }
  destruct (detect_and_plot _ _ _ _) as [[s1 out] ev].
  specialize (IH s1). destruct (run_calls s1 rest) as [s2 logs].
  simpl in *. congruence.
Qed.

(** The cache after a sequence of calls. *)
Lemma run_calls_cache calls : forall self,
  last_result (run_calls self calls).1 =
    cache_after (last_result self) (run_calls self calls).2.
Proof.
  induction calls as [|c rest IH]; intros self; simpl; [reflexivity|].
  pose proof (last_result_step self (arg_frame c) (arg_conf c)
                (arg_classes c)) as Hlast.
  destruct (detect_and_plot _ _ _ _) as [[s1 out] ev].
  specialize (IH s1). destruct (run_calls s1 rest) as [s2 logs].
  simpl in *. rewrite IH, Hlast. unfold cache_after. simpl.
  destruct (most_recent_result logs); reflexivity.
Qed.

Lemma most_recent_result_none history :
  most_recent_result history = None ->
  forall j log, history !! j = Some log -> inference_result log = None.
Proof.
  induction history as [|x rest IH]; intros Hnone j log Hj; [discriminate|].
  simpl in Hnone.
  destruct (most_recent_result rest) eqn:Hrest; [discriminate|].
  destruct j as [|j]; simpl in Hj.
  - congruence.
  - eapply IH; eauto.
Qed.

(** [most_recent_result] is the [inference_result] of the last call of the
    history that has one. *)
Lemma most_recent_result_latest history a :
  most_recent_result history = Some a ->
  exists j earlier,
    history !! j = Some earlier /\ inference_result earlier = Some a
    /\ forall j' later, (j < j')%nat -> history !! j' = Some later ->
         inference_result later = None.
Proof.
  induction history as [|x rest IH]; intros Hsome; [discriminate|].
  simpl in Hsome. destruct (most_recent_result rest) as [b|] eqn:Hrest.
  - injection Hsome as ->.
    destruct (IH eq_refl) as (j & earlier & Hj & Hres & Hlater).
    exists (S j), earlier. repeat split; auto.
    intros [|j'] later Hlt Hl; [lia|]. simpl in Hl.
    apply (Hlater j'); [lia|assumption].
  - exists 0%nat, x. repeat split; auto.
    intros [|j'] later Hlt Hl; [lia|]. simpl in Hl.
    eapply most_recent_result_none; eauto.
Qed.

(** The same, for the calls before the [k]-th of a log. *)
Lemma most_recent_result_take logs k a :
  most_recent_result (take k logs) = Some a ->
  exists j earlier,
    (j < k)%nat /\ logs !! j = Some earlier
    /\ inference_result earlier = Some a
    /\ forall j' later, (j < j' < k)%nat -> logs !! j' = Some later ->
         inference_result later = None.
Proof.
  intros Hsome.
  destruct (most_recent_result_latest _ _ Hsome)
    as (j & earlier & Hj & Hres & Hlater).
  apply lookup_take_Some in Hj. destruct Hj as [Hj Hlt].
  exists j, earlier. repeat split; auto.
  intros j' later [H1 H2] Hl. apply (Hlater j'); [assumption|].
  apply lookup_take_Some. auto.
Qed.


(** *** Resolution of the returned frame *)

Section Resolution.

(** [cv2.resize] answers with the requested [(width, height)]. *)
Hypothesis resize_shape : forall f w h g,
  cv2_resize f (w, h) = Ok g -> rows g = h /\ cols g = w.
(** [plot] draws on a copy of the image the model was given. *)
Hypothesis plot_shape : forall m img c cls m' r rest a,
  call_model m img c cls = (m', Ok (r :: rest)) -> plot r = Ok a ->
  rows a = rows img /\ cols a = cols img.

(** Where the frame a call caches comes from: the plot of an answer to the
    resized image, or the call's own input when the answer was empty. *)
Lemma inference_result_origin self c out ev self' a :
  detect_and_plot self (arg_frame c) (arg_conf c) (arg_classes c)
    = (self', out, ev) ->
  inference_result (mkCallLog c out ev) = Some a ->
  (exists src g cls r rest,
     arg_frame c = Arr src
     /\ ev = [Resize src WORK_SIZE (Ok g);
              Infer g (arg_conf c) cls (Ok (r :: rest));
              Plot r (Ok a)]
     /\ rows a = 480%nat /\ cols a = 640%nat)
  \/ (exists g cls,
     arg_frame c = Arr a
     /\ ev = [Resize a WORK_SIZE (Ok g); Infer g (arg_conf c) cls (Ok [])]).
Proof.
  unfold inference_result. simpl.
  destruct (arg_frame c) as [o|f]; [intros [= <- <- <-]; discriminate|].
  unfold detect_and_plot, run_inference.
  intros Hrun Hres. revert Hrun.
  split_reply; intros [= <- <- <-]; simpl in Hres; try discriminate;
    injection Hres as <-.
  - right. do 2 eexists. split; reflexivity.
  - match goal with
    | Hr : cv2_resize _ _ = Ok ?g, Hm : call_model _ _ _ _ = _,
      Hp : plot _ = Ok _ |- _ =>
      destruct (resize_shape _ _ _ _ Hr) as [Hh Hw];
      destruct (plot_shape _ _ _ _ _ _ _ _ Hm Hp) as [Hh' Hw']
    end.
    left. do 5 eexists. repeat split; congruence.
Qed.

(** C8 (amended). A call that produces an annotated frame resizes the
    input to 640x480 once, before the model call, and returns the
    plotted frame as it is, at 640x480.  A skipped call calls no
    collaborator at all: it returns the cached frame when there is one,
    else its input frame.  In any sequence of calls on a fresh detector
    the cached frame comes from the latest earlier call that the model
    answered and that returned a frame: it is that call's plotted frame,
    at 640x480, or, when the model answered with no result, that
    call's raw input frame, which was never resized. *)
Theorem working_resolution_kept self frame conf classes :
  let '(self', out, ev) := detect_and_plot self (Arr frame) conf classes in
  (forall r a, In (Plot r (Ok a)) ev ->
     exists resized cls rest,
       ev = [Resize frame WORK_SIZE (Ok resized);
             Infer resized conf cls (Ok (r :: rest));
             Plot r (Ok a)]
       /\ out = Ok (Some a) /\ last_result self' = Some a
       /\ rows a = 480%nat /\ cols a = 640%nat)
  /\ (skip_frames self + 1 <> 0 -> skipped self = true ->
      ev = [] /\ out = Ok (Some (default frame (last_result self))))
  /\ (forall (m : Model) (n : Z) (calls : list Call) k log f,
      n + 1 <> 0 ->
      let logs := (run_calls (init m n) calls).2 in
      logs !! k = Some log -> arg_frame (call log) = Arr f ->
      skipped (run_calls (init m n) (take k calls)).1 = true ->
      events log = []
      /\ match most_recent_result (take k logs) with
         | None => outcome log = Ok (Some f)
         | Some a =>
           outcome log = Ok (Some a)
           /\ exists j earlier,
                (j < k)%nat /\ logs !! j = Some earlier
                /\ ((exists src g c cls r rest,
                       arg_frame (call earlier) = Arr src
                       /\ events earlier =
                            [Resize src WORK_SIZE (Ok g);
                             Infer g c cls (Ok (r :: rest));
                             Plot r (Ok a)]
                       /\ rows a = 480%nat /\ cols a = 640%nat)
                    \/ (exists g c cls,
                       arg_frame (call earlier) = Arr a
                       /\ events earlier =
                            [Resize a WORK_SIZE (Ok g);
                             Infer g c cls (Ok [])]))
                /\ forall j' later, (j < j' < k)%nat ->
                     logs !! j' = Some later ->
                     inference_result later = None
         end).
Proof.
  destruct (detect_and_plot _ _ _ _) as [[self' out] ev] eqn:Hrun.
  split; [|split].
  - revert Hrun. unfold detect_and_plot, run_inference.
    split_reply; intros [= <- <- <-] r' a' Hin; simpl in Hin;
      which_event; try congruence.
    match goal with H : Plot _ _ = Plot _ _ |- _ => injection H as <- <- end.
    match goal with
    | Hr : cv2_resize _ _ = Ok ?g, Hm : call_model _ _ _ _ = _,
      Hp : plot _ = Ok _ |- _ =>
      destruct (resize_shape _ _ _ _ Hr) as [Hh Hw];
      destruct (plot_shape _ _ _ _ _ _ _ _ Hm Hp) as [Hh' Hw']
    end.
    do 3 eexists. repeat split; simpl; congruence.
  - intros Hnz Hskip.
    rewrite (detect_and_plot_skipped _ _ _ _ Hnz Hskip) in Hrun.
    injection Hrun as <- <- <-. auto.
  - clear Hrun. intros m n calls k log f Hn logs Hk Hf Hskip.
    unfold logs in *.
    destruct (run_calls_lookup _ _ _ _ Hk) as (Hc & Htake & s' & Hstep).
    pose proof (run_calls_skip_frames (take k calls) (init m n)) as Hsk.
    assert (Hnz : skip_frames (run_calls (init m n) (take k calls)).1 + 1 <> 0)
      by (rewrite Hsk; exact Hn).
    rewrite Hf in Hstep.
    rewrite (detect_and_plot_skipped _ _ _ _ Hnz Hskip) in Hstep.
    injection Hstep as _ Hout Hev.
    pose proof (run_calls_cache (take k calls) (init m n)) as Hcache.
    rewrite <- Htake in Hcache. unfold cache_after in Hcache. simpl in Hcache.
    split; [congruence|].
    destruct (most_recent_result (take k (run_calls (init m n) calls).2))
      as [a|] eqn:Hrecent.
    + rewrite Hcache in Hout. simpl in Hout. split; [congruence|].
      destruct (most_recent_result_take _ _ _ Hrecent)
        as (j & earlier & Hlt & Hj & Hres & Hlater).
      exists j, earlier. repeat split; auto.
      destruct (run_calls_lookup _ _ _ _ Hj) as (_ & _ & s'' & Hearlier).
      destruct earlier as [c o e]. simpl in *.
      destruct (inference_result_origin _ _ _ _ _ _ Hearlier Hres)
        as [(src & g & cls & r & rest & H1 & H2 & H3 & H4)
           |(g & cls & H1 & H2)].
      * left. exists src, g, (arg_conf c), cls, r, rest. auto.
      * right. exists g, (arg_conf c), cls. auto.
    + rewrite Hcache in Hout. simpl in Hout. congruence.
Qed.

End Resolution.

(** C2, at [skip_frames = 0]: the test on line 43 compares a remainder
    modulo 1 with 1, so every call is served as a skipped one.  The model is
    never invoked and each call returns its input frame. *)
Theorem skip_zero_never_infers (m : Model) (calls : list Call) :
  let logs := (run_calls (init m 0) calls).2 in
  forall log, In log logs ->
    events log = []
    /\ forall f, arg_frame (call log) = Arr f -> outcome log = Ok (Some f).
Proof.
  assert (Hgen : forall cs self, skip_frames self = 0 ->
            last_result self = None ->
            forall log, In log (run_calls self cs).2 ->
              events log = [] /\
              forall f, arg_frame (call log) = Arr f ->
                        outcome log = Ok (Some f)).
  { induction cs as [|c rest IH]; intros self Hs Hl log Hin; [destruct Hin|].
    simpl in Hin.
    assert (Hstep : exists self1 out,
               detect_and_plot self (arg_frame c) (arg_conf c) (arg_classes c)
                 = (self1, out, [])
               /\ skip_frames self1 = 0 /\ last_result self1 = None
               /\ forall f, arg_frame c = Arr f -> out = Ok (Some f)).
    { destruct (arg_frame c) as [o|f].
      - exists self, (Ok None). repeat split; auto. discriminate.
      - rewrite detect_and_plot_skipped.
        + do 2 eexists. split; [reflexivity|]. simpl. rewrite Hl.
          repeat split; auto. intros g [= <-]. reflexivity.
        + lia.
        + unfold skipped. rewrite Hs. simpl. rewrite Z.mod_1_r. reflexivity. }
    destruct Hstep as (self1 & out & Hrun & Hs1 & Hl1 & Hout).
    rewrite Hrun in Hin. specialize (IH self1 Hs1 Hl1).
    destruct (run_calls self1 rest) as [self2 logs']. simpl in *.
    destruct Hin as [<-|Hin]; [simpl; auto|]. apply IH. assumption. }
  intros logs log Hin. apply (Hgen calls (init m 0)); auto.
Qed.

End Adapter.

Arguments Resize {Results}.
Arguments Infer {Results}.
Arguments Plot {Results}.

(** *** A stand-in runtime for concrete runs

    [cv2.resize] rejects empty images; the model answers with one result
    per image, which here is the image it was given; [plot] prepends a
    marker to the pixel data. *)

Definition stub_resize (f : ndarray) (dsize : nat * nat) : Res ndarray :=
  if ((rows f =? 0) || (cols f =? 0))%nat
  then Raise (ExternalError "cv2.error")
  else Ok (Ndarray dsize.2 dsize.1 (pixels f)).

Definition stub_model (m : nat) (img : ndarray) (conf : Q) (classes : PyObj)
    : nat * Res (list ndarray) :=
  (S m, Ok [img]).

Definition stub_plot (r : ndarray) : Res ndarray :=
  Ok (Ndarray (rows r) (cols r) (255 :: pixels r)).

Definition stub_detect :=
  detect_and_plot nat ndarray stub_resize stub_model stub_plot.
Definition stub_run :=
  run_calls nat ndarray stub_resize stub_model stub_plot.

Definition full_hd (tag : Z) : ndarray := Ndarray 1080 1920 [tag].
Definition default_conf : Q := 1 # 4.

(** The class filter the main window passes: a list of label strings. *)
Definition label_classes : PyObj := PyList [PyStr "person"; PyStr "car"].

Definition nine_calls : list (Call) :=
  map (fun tag => mkCall (Arr (full_hd tag)) default_conf label_classes)
      [1; 2; 3; 4; 5; 6; 7; 8; 9].

(** The frame came out of the adapter's resize: it is the plotted answer
    to an image some call of [history] resized. *)
Definition resized_by_adapter {Results} (history : list (CallLog Results))
    (a : ndarray) : Prop :=
  exists log src g c cls r rest,
    In log history
    /\ events _ log = [Resize src WORK_SIZE (Ok g);
                       Infer g c cls (Ok (r :: rest));
                       Plot r (Ok a)].

Lemma stub_resize_shape f w h g :
  stub_resize f (w, h) = Ok g -> rows g = h /\ cols g = w.
Proof.
  unfold stub_resize. destruct (_ || _)%bool; [discriminate|].
  intros [= <-]. auto.
Qed.

Lemma stub_plot_shape (m : nat) img (c : Q) (cls : PyObj) (m' : nat) r rest a :
  stub_model m img c cls = (m', Ok (r :: rest)) -> stub_plot r = Ok a ->
  rows a = rows img /\ cols a = cols img.
Proof. unfold stub_model, stub_plot. intros [= _ <- _] [= <-]. auto. Qed.

(** The nine calls under the stand-in runtime: frames 1, 4 and 7 come back
    annotated at 640x480, and each is served again on the two calls that
    follow. *)
Example nine_calls_outcomes :
  map (outcome ndarray) (stub_run (init nat 0%nat 2) nine_calls).2 =
    let a (tag : Z) := Ok (Some (Ndarray 480 640 [255; tag])) in
    [a 1; a 1; a 1; a 4; a 4; a 4; a 7; a 7; a 7].
Proof. reflexivity. Qed.

(** A model that always raises: the call hands the input frame back and
    caches nothing. *)
Definition failing_model (m : nat) (img : ndarray) (conf : Q) (classes : PyObj)
    : nat * Res (list ndarray) :=
  (S m, Raise (ExternalError "inference failed")).

Example model_raises_passthrough :
  detect_and_plot nat ndarray stub_resize failing_model stub_plot
    (init nat 0%nat 2) (Arr (full_hd 1)) default_conf PyNone
  = (mkYoloDetector nat 1%nat 1 2 None, Ok (Some (full_hd 1)),
     [Resize (full_hd 1) WORK_SIZE (Ok (Ndarray 480 640 [1]));
      Infer (Ndarray 480 640 [1]) default_conf PyNone
            (Raise (ExternalError "inference failed"))]).
Proof. reflexivity. Qed.

(** An empty array passes the [isinstance] test and is refused by
    [cv2.resize], outside the [try] block. *)
Example empty_frame_raises :
  (stub_detect (init nat 0%nat 2) (Arr (Ndarray 0 0 [])) default_conf PyNone).1.2
  = Raise (ExternalError "cv2.error").
Proof. reflexivity. Qed.

(** [True] is an [int] for [isinstance], a label is not. *)
Example check_classes_bools :
  check_classes (PyList [PyInt 0; PyBool true]) = Ok (PyList [PyInt 0; PyBool true])
  /\ check_classes label_classes = Ok PyNone
  /\ check_classes (PyStr "person") = Ok PyNone
  /\ check_classes (PyInt 0) = Raise TypeError.
Proof. repeat split. Qed.





(** C8, as stated, fails on skipped calls: the second call skips inference
    and returns the first call's annotated frame, which is 640x480 and came
    out of the adapter's resize, while its own input is 1920x1080. *)
Lemma skipped_call_returns_resized_frame :
  let calls := [mkCall (Arr (full_hd 1)) default_conf PyNone;
                mkCall (Arr (full_hd 2)) default_conf PyNone] in
  let logs := (stub_run (init nat 0%nat 2) calls).2 in
  let a := Ndarray 480 640 [255; 1] in
  map (ran_inference ndarray) logs = [true; false]
  /\ map (outcome ndarray) logs = [Ok (Some a); Ok (Some a)]
  /\ resized_by_adapter (take 1 logs) a
  /\ (rows (full_hd 2), cols (full_hd 2)) = (1080%nat, 1920%nat).
Proof.
  repeat split.
  eexists _, _, _, _, _, _, _. split; [left; reflexivity|]. reflexivity.
Qed.

Lemma skip_zero_never_infers_witness :
  let logs := (stub_run (init nat 0%nat 0) nine_calls).2 in
  let log := mkCallLog ndarray
               (mkCall (Arr (full_hd 1)) default_conf label_classes)
               (Ok (Some (full_hd 1))) [] in
  In log logs
  /\ events ndarray log = []
  /\ forall f, arg_frame (call ndarray log) = Arr f ->
               outcome ndarray log = Ok (Some f).
Proof.
  split; [left; reflexivity|].
  apply (skip_zero_never_infers nat ndarray stub_resize stub_model stub_plot
           0%nat nine_calls).
  left. reflexivity.
Defined.



(** The second of two calls is a skipped one: it is served the first
    call's plotted frame, which is 640x480. *)
Lemma working_resolution_kept_witness :
  let calls := [mkCall (Arr (full_hd 1)) default_conf PyNone;
                mkCall (Arr (full_hd 2)) default_conf PyNone] in
  let logs := (stub_run (init nat 0%nat 2) calls).2 in
  exists log a,
    logs !! 1%nat = Some log
    /\ skipped nat (stub_run (init nat 0%nat 2) (take 1 calls)).1 = true
    /\ most_recent_result ndarray (take 1 logs) = Some a
    /\ events ndarray log = []
    /\ outcome ndarray log = Ok (Some a)
    /\ exists j earlier,
         (j < 1)%nat /\ logs !! j = Some earlier
         /\ ((exists src g c cls r rest,
                arg_frame (call ndarray earlier) = Arr src
                /\ events ndarray earlier =
                     [Resize src WORK_SIZE (Ok g);
                      Infer g c cls (Ok (r :: rest));
                      Plot r (Ok a)]
                /\ rows a = 480%nat /\ cols a = 640%nat)
             \/ (exists g c cls,
                arg_frame (call ndarray earlier) = Arr a
                /\ events ndarray earlier =
                     [Resize a WORK_SIZE (Ok g); Infer g c cls (Ok [])]))
         /\ forall j' later, (j < j' < 1)%nat -> logs !! j' = Some later ->
              inference_result ndarray later = None.
Proof.
  intros calls logs.
  pose proof (working_resolution_kept nat ndarray stub_resize stub_model
                stub_plot stub_resize_shape stub_plot_shape
                (init nat 0%nat 2) (full_hd 1) default_conf PyNone) as H.
  destruct (detect_and_plot nat ndarray stub_resize stub_model stub_plot
              (init nat 0%nat 2) (Arr (full_hd 1)) default_conf PyNone)
    as [[self' out] ev] in H.
  destruct H as (_ & _ & H).
  specialize (H 0%nat 2 calls 1%nat
                (mkCallLog ndarray (mkCall (Arr (full_hd 2)) default_conf PyNone)
                   (Ok (Some (Ndarray 480 640 [255; 1]))) [])
                (full_hd 2) ltac:(discriminate)
                eq_refl eq_refl eq_refl).
  destruct H as [Hev H].
  change (most_recent_result ndarray
            (take 1 (run_calls nat ndarray stub_resize stub_model stub_plot
                       (init nat 0%nat 2) calls).2))
    with (Some (Ndarray 480 640 [255; 1])) in H.
  destruct H as [Hout Horigin].
  eexists _, _. split; [reflexivity|]. split; [reflexivity|].
  split; [reflexivity|]. split; [exact Hev|]. split; [exact Hout|].
  exact Horigin.
Defined.

End Detection.


(** ** capture_thread.py *)

Module Capture.

(** What the camera behind [cv2.VideoCapture] does. *)
Record Camera := mkCamera {
  (** [cv2.VideoCapture(index, cv2.CAP_DSHOW)]: raises, or [isOpened()]. *)
  open_dshow : Res bool;
  (** [cv2.VideoCapture(index)], the fallback. *)
  open_plain : Res bool;
  (** The answer to the k-th [read()] of an opened capture. *)
  feed : nat -> bool * option ndarray
}.

(** The [cv2.VideoCapture] object held in [self.cap]. *)
Record VideoCapture := mkVideoCapture {
  isOpened : bool;
  reads : nat;
  releases : nat
}.

Definition release (c : VideoCapture) : VideoCapture :=
  {| isOpened := false; reads := reads c; releases := S (releases c) |}.

Definition read (cam : Camera) (c : VideoCapture)
    : bool * option ndarray * VideoCapture :=
  let answer := if isOpened c then feed cam (reads c) else (false, None) in
  (answer, {| isOpened := isOpened c; reads := S (reads c);
              releases := releases c |}).

Inductive CapProp := CAP_PROP_FRAME_WIDTH | CAP_PROP_FRAME_HEIGHT | CAP_PROP_FPS.

Inductive ErrorMsg :=
| CannotOpen (index : PyObj)
| ReadFailure.

(** Device calls and signals of the thread, in program order. *)
Inductive Effect :=
| CapSet (prop : CapProp) (value : Z)
| CapRead (ret : bool) (frame : option ndarray)
| CapRelease
| FrameCaptured (frame : option ndarray)
| CameraError (msg : ErrorMsg)
| DetectorFailed (e : PyExn)
| Sleep.

(** Why [run] returned. *)
Inductive Exit :=
| OpenFailed
| ReadFailed
| StopRequested
| Crashed (e : PyExn).

(** Where the worker thread is. *)
Inductive Phase :=
| NotStarted
| Starting
| Looping
| Finished (why : Exit).

Section Thread.

(** The detector as the loop uses it: [detector.detect_and_plot(frame)]. *)
Variable Detector : Type.
Variable detect_and_plot : Detector -> ndarray -> Detector * Res (option ndarray).

Record VideoCaptureThread := mkThread {
  cameraIndex : PyObj;
  width : Z;
  height : Z;
  fps : Z;
  detector : option Detector;
  _running : bool;
  cap : option VideoCapture;
  phase : Phase;
  trace : list Effect
}.

(** [__init__]. *)
Definition init (index : PyObj) (w h f : Z) (d : option Detector)
    : VideoCaptureThread :=
  {| cameraIndex := index; width := w; height := h; fps := f; detector := d;
     _running := true; cap := None; phase := NotStarted; trace := [] |}.

Definition set_running (t : VideoCaptureThread) (b : bool) :=
  {| cameraIndex := cameraIndex t; width := width t; height := height t;
     fps := fps t; detector := detector t; _running := b; cap := cap t;
     phase := phase t; trace := trace t |}.
Definition set_cap (t : VideoCaptureThread) (c : option VideoCapture) :=
  {| cameraIndex := cameraIndex t; width := width t; height := height t;
     fps := fps t; detector := detector t; _running := _running t; cap := c;
     phase := phase t; trace := trace t |}.
Definition set_phase (t : VideoCaptureThread) (p : Phase) :=
  {| cameraIndex := cameraIndex t; width := width t; height := height t;
     fps := fps t; detector := detector t; _running := _running t;
     cap := cap t; phase := p; trace := trace t |}.
Definition set_detector (t : VideoCaptureThread) (d : option Detector) :=
  {| cameraIndex := cameraIndex t; width := width t; height := height t;
     fps := fps t; detector := d; _running := _running t; cap := cap t;
     phase := phase t; trace := trace t |}.
Definition emit (t : VideoCaptureThread) (es : list Effect) :=
  {| cameraIndex := cameraIndex t; width := width t; height := height t;
     fps := fps t; detector := detector t; _running := _running t;
     cap := cap t; phase := phase t; trace := trace t ++ es |}.

(** Lines 29-43 of [run]: open the camera, set the properties, give up
    when it is not opened. *)
Definition run_open (cam : Camera) (t : VideoCaptureThread)
    : VideoCaptureThread :=
  let made :=
    match open_dshow cam with
    | Ok o => Ok o
    | Raise _ => open_plain cam
    end in
  match made with
  | Raise e => set_phase t (Finished (Crashed e))
  | Ok opened =>
    let t := set_cap t (Some (mkVideoCapture opened 0 0)) in
    let t := emit t [CapSet CAP_PROP_FRAME_WIDTH (width t);
                     CapSet CAP_PROP_FRAME_HEIGHT (height t);
                     CapSet CAP_PROP_FPS (fps t)] in
    if negb opened
    then set_phase (emit t [CameraError (CannotOpen (cameraIndex t))])
                   (Finished OpenFailed)
    else set_phase t Looping
  end.

(** Lines 64-65, after the loop. *)
Definition run_cleanup (why : Exit) (t : VideoCaptureThread)
    : VideoCaptureThread :=
  match cap t with
  | Some c => set_phase (emit (set_cap t (Some (release c))) [CapRelease])
                        (Finished why)
  | None => set_phase t (Finished why)
  end.

(** Lines 51-58: the optional detection, exceptions printed and dropped. *)
Definition run_detect (t : VideoCaptureThread) (frame : ndarray)
    : VideoCaptureThread * option ndarray :=
  match detector t with
  | None => (t, Some frame)
  | Some d =>
    match detect_and_plot d frame with
    | (d', Ok v) => (set_detector t (Some d'), v)
    | (d', Raise e) => (emit (set_detector t (Some d')) [DetectorFailed e],
                        Some frame)
    end
  end.

(** Line 63, [time.sleep(1 / (self.fps + 1e-6))], outside any [try].
    Adding the float converts the int [fps], which overflows beyond the
    double range; the sum is never zero for an int; the quotient is
    negative for every negative [fps], and [time.sleep] raises
    [ValueError] on a negative length. *)
Definition sleep_raises (fps : Z) : option PyExn :=
  if float_of_int_overflows fps then Some OverflowError
  else if fps <? 0 then Some ValueError
  else None.

(** One test of the [while] condition with the loop body that follows, or
    the exit from the loop with the cleanup.  An exception of line 63
    ends [run] where it is raised: lines 65-66 are not reached. *)
Definition run_iteration (cam : Camera) (t : VideoCaptureThread)
    : VideoCaptureThread :=
  if negb (_running t) then run_cleanup StopRequested t
  else
    match cap t with
    | None => set_phase t (Finished (Crashed AttributeError))
    | Some c =>
      let '(ret, frame, c') := read cam c in
      let t := emit (set_cap t (Some c')) [CapRead ret frame] in
      match ret, frame with
      | true, Some frame =>
        let '(t, shown) := run_detect t frame in
        match sleep_raises (fps t) with
        | None => emit t [FrameCaptured shown; Sleep]
        | Some e =>
          set_phase (emit t [FrameCaptured shown]) (Finished (Crashed e))
        end
      | _, _ => run_cleanup ReadFailed (emit t [CameraError ReadFailure])
      end
    end.

(** One scheduling slice of the worker thread. *)
Definition worker_step (cam : Camera) (t : VideoCaptureThread)
    : VideoCaptureThread :=
  match phase t with
  | Starting => run_open cam t
  | Looping => run_iteration cam t
  | NotStarted | Finished _ => t
  end.

(** [QThread.start()]. *)
Definition start (t : VideoCaptureThread) : VideoCaptureThread :=
  match phase t with
  | NotStarted | Finished _ => set_phase t Starting
  | Starting | Looping => t
  end.

(** [QThread.wait()]: the caller blocks while the worker runs on. *)
Fixpoint wait (fuel : nat) (cam : Camera) (t : VideoCaptureThread)
    : VideoCaptureThread :=
  match phase t with
  | Starting | Looping =>
    match fuel with
    | O => t
    | S n => wait n cam (worker_step cam t)
    end
  | NotStarted | Finished _ => t
  end.

(** [stop]: clear the flag, [quit()] (no event loop runs, so nothing
    happens), [wait()].  Two slices always suffice, see [stop_returns]. *)
Definition stop (cam : Camera) (t : VideoCaptureThread)
    : VideoCaptureThread :=
  wait 2 cam (set_running t false).

(** What the owner and the scheduler may do, in any order. *)
Inductive Action := DoStart | Slice | DoStop.

Definition act (cam : Camera) (t : VideoCaptureThread) (a : Action)
    : VideoCaptureThread :=
  match a with
  | DoStart => start t
  | Slice => worker_step cam t
  | DoStop => stop cam t
  end.

Definition run_schedule (cam : Camera) (t : VideoCaptureThread)
    (acts : list Action) : VideoCaptureThread :=
  fold_left (act cam) acts t.

Definition live (p : Phase) : bool :=
  match p with
  | Starting | Looping => true
  | NotStarted | Finished _ => false
  end.


(** *** The handle at the end of [run] *)








(** *** [stop] returns, and a second [stop] changes nothing *)

Lemma step_running cam t : _running (worker_step cam t) = _running t.
Proof.
  unfold worker_step, run_open, run_iteration, run_cleanup, run_detect, read.
  destruct (phase t); try reflexivity.
  - destruct (open_dshow cam) as [[|]|]; simpl; try reflexivity;
      destruct (open_plain cam) as [[|]|]; reflexivity.
  - destruct (_running t) eqn:Hr; simpl.
    + destruct (cap t) as [c|]; simpl; [|assumption].
      destruct (isOpened c); simpl;
        [destruct (feed cam (reads c)) as [[|] [frame|]]|]; simpl; auto.
      destruct (detector t) as [d|]; simpl;
        [destruct (detect_and_plot d frame) as [d' [v|e]]; simpl|];
        destruct (sleep_raises (fps t)); simpl; auto.
    + destruct (cap t); simpl; assumption.
Qed.

Lemma step_stops cam t :
  _running t = false -> phase t = Looping ->
  live (phase (worker_step cam t)) = false.
Proof.
  intros Hr Hp. unfold worker_step, run_iteration, run_cleanup.
  rewrite Hp, Hr. simpl. destruct (cap t); reflexivity.
Qed.

Lemma step_opens cam t :
  phase t = Starting ->
  phase (worker_step cam t) = Looping
  \/ live (phase (worker_step cam t)) = false.
Proof.
  intros Hp. unfold worker_step, run_open. rewrite Hp.
  destruct (open_dshow cam) as [[|]|]; simpl; auto;
    destruct (open_plain cam) as [[|]|]; simpl; auto.
Qed.

Lemma wait_not_live cam fuel t :
  live (phase t) = false -> wait fuel cam t = t.
Proof. destruct fuel, (phase t) eqn:Hp; simpl; rewrite ?Hp; auto; discriminate. Qed.

Lemma wait_unfold cam n t :
  wait (S n) cam t =
    if live (phase t) then wait n cam (worker_step cam t) else t.
Proof. simpl. destruct (phase t); reflexivity. Qed.

Lemma wait_zero cam t : wait 0 cam t = t.
Proof. simpl. destruct (phase t); reflexivity. Qed.

Lemma wait_running cam fuel : forall t,
  _running (wait fuel cam t) = _running t.
Proof.
  induction fuel as [|n IH]; intros t; [rewrite wait_zero; reflexivity|].
  rewrite wait_unfold. destruct (live (phase t)); [|reflexivity].
  rewrite IH. apply step_running.
Qed.

(** Once the flag is cleared the worker leaves [run] within two slices. *)
Lemma wait_two_halts cam t :
  _running t = false -> live (phase (wait 2 cam t)) = false.
Proof.
  intros Hr. rewrite wait_unfold.
  destruct (live (phase t)) eqn:Hl; [|assumption].
  rewrite wait_unfold.
  destruct (live (phase (worker_step cam t))) eqn:Hl1; [|assumption].
  rewrite wait_zero.
  destruct (phase t) eqn:Hp; try discriminate.
  - destruct (step_opens cam t Hp) as [Hp1|Hp1]; [|congruence].
    apply step_stops; [|assumption]. rewrite step_running. assumption.
  - rewrite (step_stops cam t Hr Hp) in Hl1. discriminate.
Qed.

(** [stop] returns: after it the worker is not running any more. *)
Lemma stop_returns cam t :
  live (phase (stop cam t)) = false /\ _running (stop cam t) = false.
Proof.
  unfold stop. split.
  - apply wait_two_halts. reflexivity.
  - rewrite wait_running. reflexivity.
Qed.

Lemma set_running_same t : set_running t (_running t) = t.
Proof. destruct t. reflexivity. Qed.

Lemma stop_again cam t : stop cam (stop cam t) = stop cam t.
Proof.
  destruct (stop_returns cam t) as [Hl Hr].
  unfold stop at 1. rewrite <- Hr, set_running_same.
  apply wait_not_live, Hl.
Qed.

End Thread.

(** The detector as the capture loop calls it: default threshold, no
    class filter. *)
Definition loop_detector {Model Results} resize run_model plot
    (d : Detection.YoloDetector Model) (frame : ndarray)
    : Detection.YoloDetector Model * Res (option ndarray) :=
  (Detection.detect_and_plot Model Results resize run_model plot
     d (Arr frame) (1 # 4) PyNone).1.

Definition stub_loop_detector :=
  loop_detector Detection.stub_resize Detection.stub_model Detection.stub_plot.

(** A camera that delivers two frames and then fails to read. *)
Definition short_camera : Camera :=
  mkCamera (Ok true) (Ok true)
    (fun k => match k with
              | 0%nat => (true, Some (Ndarray 480 640 [10]))
              | 1%nat => (true, Some (Ndarray 480 640 [11]))
              | _ => (false, None)
              end).

Definition short_run (acts : list Action) :=
  run_schedule _ stub_loop_detector short_camera
    (init _ (PyInt 0) 640 480 30 (Some (Detection.init nat 0%nat 2))) acts.

Example stop_request_releases_once :
  let t := short_run [DoStart; Slice; Slice; DoStop] in
  phase _ t = Finished StopRequested
  /\ cap _ t = Some (mkVideoCapture false 1 1)
  /\ trace _ t = [CapSet CAP_PROP_FRAME_WIDTH 640;
                  CapSet CAP_PROP_FRAME_HEIGHT 480;
                  CapSet CAP_PROP_FPS 30;
                  CapRead true (Some (Ndarray 480 640 [10]));
                  FrameCaptured (Some (Ndarray 480 640 [255; 10]));
                  Sleep;
                  CapRelease].
Proof. repeat split. Qed.

Example read_failure_releases_once :
  let t := short_run [DoStart; Slice; Slice; Slice; Slice] in
  phase _ t = Finished ReadFailed
  /\ cap _ t = Some (mkVideoCapture false 3 1)
  /\ last (trace _ t) = Some CapRelease.
Proof. repeat split. Qed.



End Capture.


(** ** video_player.py *)

Module Player.

(** The file-backed [cv2.VideoCapture] held in [self.cap]. *)
Record VideoCapture := mkVideoCapture {
  (** What the decoder yields, frame by frame. *)
  stream : list PyVal;
  (** [CAP_PROP_POS_FRAMES]. *)
  pos : nat;
  isOpened : bool
}.

(** [cap.read()]: the next frame, or [(False, None)] at the end. *)
Definition read (c : VideoCapture) : bool * PyVal * VideoCapture :=
  if isOpened c then
    match stream c !! pos c with
    | Some v => (true, v, mkVideoCapture (stream c) (S (pos c)) true)
    | None => (false, Obj PyNone, c)
    end
  else (false, Obj PyNone, c).

(** Calls the player makes on the timer, the capture and the window. *)
Inductive Effect :=
| TimerStart (msec : Z)
| TimerStop
| CapRelease
| StopVideo
| LogInvalidFrame
| LogFrameShape (rows cols : nat)
| UpdatePlaybackPosition (pos : nat)
| UpdatePlaybackFrame (frame : ndarray).

Record VideoPlayer := mkVideoPlayer {
  filePath : string;
  cap : option VideoCapture;
  isPlaying : bool;
  isPaused : bool;
  fps : Z;
  (** [self.timer.isActive()]. *)
  timer_active : bool
}.

Section Files.

(** What [cv2.VideoCapture(path)] finds: the frames of a readable file. *)
Variable decode : string -> option (list PyVal).

(** [__init__]. *)
Definition init (path : string) (f : Z) : VideoPlayer :=
  {| filePath := path; cap := None; isPlaying := false; isPaused := false;
     fps := f; timer_active := false |}.

Definition open (self : VideoPlayer) : VideoPlayer * bool :=
  let c := match decode (filePath self) with
           | Some frames => mkVideoCapture frames 0 true
           | None => mkVideoCapture [] 0 false
           end in
  ({| filePath := filePath self; cap := Some c; isPlaying := isPlaying self;
      isPaused := isPaused self; fps := fps self;
      timer_active := timer_active self |},
   isOpened c).

(** [int(cap.get(cv2.CAP_PROP_FRAME_COUNT))]. *)
Definition get_total_frames (self : VideoPlayer) : nat :=
  match cap self with
  | Some c => length (stream c)
  | None => 0%nat
  end.

(** [int(1000 / (self.fps + 1e-6))], in exact arithmetic. *)
Definition period_msec (f : Z) : Z :=
  Z.quot (1000 * 1000000) (f * 1000000 + 1).

Definition start (self : VideoPlayer) : VideoPlayer * list Effect :=
  ({| filePath := filePath self; cap := cap self; isPlaying := true;
      isPaused := false; fps := fps self; timer_active := true |},
   [TimerStart (period_msec (fps self))]).

Definition pause (self : VideoPlayer) : VideoPlayer * list Effect :=
  ({| filePath := filePath self; cap := cap self; isPlaying := false;
      isPaused := true; fps := fps self; timer_active := false |},
   [TimerStop]).

Definition stop (self : VideoPlayer) : VideoPlayer * list Effect :=
  let timer_calls := if timer_active self then [TimerStop] else [] in
  let cap_calls := match cap self with
                   | Some _ => [CapRelease]
                   | None => []
                   end in
  ({| filePath := filePath self; cap := None; isPlaying := false;
      isPaused := false; fps := fps self; timer_active := false |},
   timer_calls ++ cap_calls).

(** [mainWindow.stop_video()] as the player sees it: the window calls
    [stop()] on the player it holds. *)
Definition stop_video (self : VideoPlayer) : VideoPlayer * list Effect :=
  let '(self, calls) := stop self in
  (self, StopVideo :: calls).

Definition set_cap (self : VideoPlayer) (c : VideoCapture) : VideoPlayer :=
  {| filePath := filePath self; cap := Some c; isPlaying := isPlaying self;
     isPaused := isPaused self; fps := fps self;
     timer_active := timer_active self |}.

(** The timer slot. *)
Definition _next_frame (self : VideoPlayer) : VideoPlayer * list Effect :=
  if negb (isPlaying self) || isPaused self then (self, [])
  else
    match cap self with
    | None => (self, [])
    | Some c =>
      let '(ret, frame, c) := read c in
      let self := set_cap self c in
      match ret, frame with
      | true, Arr a =>
        (self, [LogFrameShape (rows a) (cols a);
                UpdatePlaybackPosition (pos c);
                UpdatePlaybackFrame a])
      | true, Obj PyNone | false, _ => stop_video self
      | true, Obj _ =>
        let '(self, calls) := stop_video self in
        (self, LogInvalidFrame :: calls)
      end
    end.

Inductive Op := DoOpen | DoStart | DoPause | DoStop | Tick.

Definition apply_op (self : VideoPlayer) (op : Op)
    : VideoPlayer * list Effect :=
  match op with
  | DoOpen => ((open self).1, [])
  | DoStart => start self
  | DoPause => pause self
  | DoStop => stop self
  | Tick => _next_frame self
  end.

Definition run_ops (self : VideoPlayer) (ops : list Op) : VideoPlayer :=
  fold_left (fun p op => (apply_op p op).1) ops self.

(** The playback flags are not both set. *)
Definition flags_ok (self : VideoPlayer) : bool :=
  negb (isPlaying self && isPaused self).

Lemma flags_ok_op self op :
  flags_ok self = true -> flags_ok (apply_op self op).1 = true.
Proof.
  intros H. destruct op; simpl; auto.
  unfold _next_frame, stop_video, flags_ok in *.
  destruct (negb (isPlaying self) || isPaused self); [assumption|].
  destruct (cap self) as [c|]; [|assumption].
  destruct (read c) as [[[|] [[]|a]] c']; simpl; auto.
Qed.

Lemma flags_ok_run ops : forall self,
  flags_ok self = true -> flags_ok (run_ops self ops) = true.
Proof.
  induction ops as [|op ops IH]; intros self H; simpl; [assumption|].
  apply IH, flags_ok_op, H.
Qed.

(** C6. Whatever [open], [start], [pause], [stop] calls and timer ticks a
    player has gone through since it was created, [isPlaying] and
    [isPaused] are not both true; and [start], [pause] and [stop] leave at
    most one of them true from any state at all. *)
Theorem playing_and_paused_exclusive path f (ops : list Op) :
  (isPlaying (run_ops (init path f) ops)
   && isPaused (run_ops (init path f) ops) = false)
  /\ forall self,
      (isPlaying (start self).1 && isPaused (start self).1 = false)
      /\ (isPlaying (pause self).1 && isPaused (pause self).1 = false)
      /\ (isPlaying (stop self).1 && isPaused (stop self).1 = false).
Proof.
  split.
  - apply negb_true_iff, (flags_ok_run ops (init path f)). reflexivity.
  - intros self. repeat split.
Qed.

(** After [stop] nothing is left for a second [stop] to do. *)
Lemma stop_nothing_left self :
  stop (stop self).1 = ((stop self).1, []).
Proof. reflexivity. Qed.

End Files.

(** A readable file of two frames, played to its end: the third tick
    finds no frame and goes through the window's stop path. *)
Definition two_frames (path : string) : option (list PyVal) :=
  Some [Arr (Ndarray 480 640 [1]); Arr (Ndarray 480 640 [2])].

Example plays_to_the_end :
  let p := run_ops two_frames (init "clip.mp4" 30)
             [DoOpen; DoStart; Tick; Tick] in
  period_msec 30 = 33
  /\ (_next_frame p).2 = [StopVideo; TimerStop; CapRelease]
  /\ (_next_frame p).1 = init "clip.mp4" 30
  /\ stop (_next_frame p).1 = (init "clip.mp4" 30, []).
Proof. repeat split. Qed.

Example pause_then_start :
  let p := run_ops two_frames (init "clip.mp4" 30)
             [DoOpen; DoStart; Tick; DoPause; Tick; DoStart] in
  (isPlaying p, isPaused p, timer_active p, pos <$> cap p)
  = (true, false, true, Some 1%nat).
Proof. reflexivity. Qed.

End Player.


(** ** utils.py and the recording methods of main_window.py *)

Module Recorder.

Local Open Scope nat_scope.

(** Calls on [cv2.VideoWriter] objects; a writer is named by the order in
    which it was constructed.  The codec, frame rate and frame size given
    to the constructor are not tracked. *)
Inductive WriterCall :=
| WOpen (h : nat) (path : string)
| WRelease (h : nat)
| WWrite (h : nat) (frame : ndarray) (raised : bool).

(** [safe_release(cap)]: release unless [None]; exceptions are dropped. *)
Definition safe_release (cap : option nat) : list WriterCall :=
  match cap with
  | Some h => [WRelease h]
  | None => []
  end.

(** The recording state of the main window. *)
Record MainWindow := mkMainWindow {
  isRecording : bool;
  (** Minutes between rollovers. *)
  timerInterval : Z;
  lastRecordTime : Q;
  recordOut : option nat;
  baseFilePath : option string;
  recordSegmentCounter : nat;
  (** [self.captureThread is not None]. *)
  captureThread : bool;
  (** How many [cv2.VideoWriter] objects have been constructed. *)
  writers_made : nat
}.

Definition DEFAULT_INTERVAL_MINUTES : Z := 1%Z.

(** The recording fields after [__init__], at time [now]. *)
Definition init (now : Q) : MainWindow :=
  {| isRecording := false; timerInterval := DEFAULT_INTERVAL_MINUTES;
     lastRecordTime := now; recordOut := None; baseFilePath := None;
     recordSegmentCounter := 0; captureThread := false; writers_made := 0 |}.

Section Window.

(** [os.path.splitext]. *)
Variable splitext : string -> string * string.

Definition Step : Type := MainWindow * list WriterCall.

(** [start_new_save_file]; [ctor_raises] tells whether the
    [cv2.VideoWriter(...)] constructor raises. *)
Definition start_new_save_file (ctor_raises : bool) (self : MainWindow)
    : Step :=
  match baseFilePath self with
  | None => (self, [])
  | Some base =>
    let '(base_name, ext) := splitext base in
    let new_file_path :=
      base_name +:+ "_part" +:+ pretty (recordSegmentCounter self) +:+ ext in
    let released := safe_release (recordOut self) in
    if ctor_raises then
      ({| isRecording := isRecording self;
          timerInterval := timerInterval self;
          lastRecordTime := lastRecordTime self;
          recordOut := recordOut self;
          baseFilePath := baseFilePath self;
          recordSegmentCounter := S (recordSegmentCounter self);
          captureThread := captureThread self;
          writers_made := writers_made self |},
       released)
    else
      ({| isRecording := isRecording self;
          timerInterval := timerInterval self;
          lastRecordTime := lastRecordTime self;
          recordOut := Some (writers_made self);
          baseFilePath := baseFilePath self;
          recordSegmentCounter := S (recordSegmentCounter self);
          captureThread := captureThread self;
          writers_made := S (writers_made self) |},
       released ++ [WOpen (writers_made self) new_file_path])
  end.

Definition set_lastRecordTime (self : MainWindow) (now : Q) : MainWindow :=
  {| isRecording := isRecording self; timerInterval := timerInterval self;
     lastRecordTime := now; recordOut := recordOut self;
     baseFilePath := baseFilePath self;
     recordSegmentCounter := recordSegmentCounter self;
     captureThread := captureThread self;
     writers_made := writers_made self |}.

(** The recording part of [update_frame]. *)
Definition update_frame (frame : option ndarray) (now : Q)
    (ctor_raises write_raises : bool) (self : MainWindow) : Step :=
  match isRecording self, frame with
  | true, Some frame =>
    let '(self, rolled) :=
      if Qle_bool (inject_Z (timerInterval self * 60)%Z)
                  (Qminus now (lastRecordTime self))
      then
        let '(self, calls) := start_new_save_file ctor_raises self in
        (set_lastRecordTime self now, calls)
      else (self, []) in
    match recordOut self with
    | Some h => (self, rolled ++ [WWrite h frame write_raises])
    | None => (self, rolled)
    end
  | _, _ => (self, [])
  end.

(** A frame handed to [update_frame] with the answers of the outside:
    the clock, and whether the writer constructor and [write] raise. *)
Record Delivery := mkDelivery {
  shown_frame : option ndarray;
  shown_at : Q;
  shown_ctor_raises : bool;
  shown_write_raises : bool
}.

(** Frames delivered one after the other while a modal dialog runs the
    event loop. *)
Fixpoint deliver (frames : list Delivery) (self : MainWindow) : Step :=
  match frames with
  | [] => (self, [])
  | d :: frames =>
    let '(self1, calls1) :=
      update_frame (shown_frame d) (shown_at d) (shown_ctor_raises d)
                   (shown_write_raises d) self in
    let '(self2, calls2) := deliver frames self1 in
    (self2, calls1 ++ calls2)
  end.

(** [start_recording].  Lines 590-593 set [isRecording] and reset the
    segment counter before the modal save dialog of lines 604-607 is
    shown; while it is open its event loop hands the frames [during] to
    [update_frame], which sees the [baseFilePath] left by the last use.
    [dialog] is the path the dialog returns, empty when the user
    cancels.  A [cameraError] delivered meanwhile only clears
    [captureThread], which is not read again before the method returns:
    it is a [StopCamera] that follows. *)
Definition start_recording (during : list Delivery) (dialog : string)
    (now : Q) (ctor_raises : bool) (self : MainWindow) : Step :=
  if negb (captureThread self) then (self, [])
  else if isRecording self then (self, [])
  else
    let armed :=
      {| isRecording := true; timerInterval := timerInterval self;
         lastRecordTime := lastRecordTime self; recordOut := recordOut self;
         baseFilePath := baseFilePath self; recordSegmentCounter := 0;
         captureThread := captureThread self;
         writers_made := writers_made self |} in
    let '(shown, calls0) := deliver during armed in
    let chosen (recording : bool) :=
      {| isRecording := recording; timerInterval := timerInterval shown;
         lastRecordTime := lastRecordTime shown; recordOut := recordOut shown;
         baseFilePath := Some dialog;
         recordSegmentCounter := recordSegmentCounter shown;
         captureThread := captureThread shown;
         writers_made := writers_made shown |} in
    if String.eqb dialog "" then (chosen false, calls0)
    else
      let '(self, calls) := start_new_save_file ctor_raises (chosen true) in
      (set_lastRecordTime self now, calls0 ++ calls).

Definition stop_recording (self : MainWindow) : Step :=
  if isRecording self then
    ({| isRecording := false; timerInterval := timerInterval self;
        lastRecordTime := lastRecordTime self; recordOut := None;
        baseFilePath := None;
        recordSegmentCounter := recordSegmentCounter self;
        captureThread := captureThread self;
        writers_made := writers_made self |},
     safe_release (recordOut self))
  else (self, []).

Definition set_captureThread (self : MainWindow) (present : bool)
    : MainWindow :=
  {| isRecording := isRecording self; timerInterval := timerInterval self;
     lastRecordTime := lastRecordTime self; recordOut := recordOut self;
     baseFilePath := baseFilePath self;
     recordSegmentCounter := recordSegmentCounter self;
     captureThread := present; writers_made := writers_made self |}.

Definition on_interval_change (minutes : Z) (self : MainWindow)
    : MainWindow :=
  {| isRecording := isRecording self; timerInterval := minutes;
     lastRecordTime := lastRecordTime self; recordOut := recordOut self;
     baseFilePath := baseFilePath self;
     recordSegmentCounter := recordSegmentCounter self;
     captureThread := captureThread self;
     writers_made := writers_made self |}.

(** The writer part of [closeEvent]. *)
Definition closeEvent (self : MainWindow) : Step :=
  (self, safe_release (recordOut self)).

(** What can happen to the window, with the answers of the outside. *)
Inductive UiEvent :=
| StartCamera
| StopCamera
| StartRecording (during : list Delivery) (dialog : string) (now : Q)
                 (ctor_raises : bool)
| FrameCaptured (frame : option ndarray) (now : Q)
                (ctor_raises write_raises : bool)
| StopRecording
| IntervalChange (minutes : Z)
| CloseEvent.

Definition handle (self : MainWindow) (e : UiEvent) : Step :=
  match e with
  | StartCamera => (set_captureThread self true, [])
  | StopCamera => (set_captureThread self false, [])
  | StartRecording during dialog now ctor_raises =>
    start_recording during dialog now ctor_raises self
  | FrameCaptured frame now ctor_raises write_raises =>
    update_frame frame now ctor_raises write_raises self
  | StopRecording => stop_recording self
  | IntervalChange minutes => (on_interval_change minutes self, [])
  | CloseEvent => closeEvent self
  end.

(** All writer calls of a run of the window, in order. *)
Fixpoint run (self : MainWindow) (es : list UiEvent) : Step :=
  match es with
  | [] => (self, [])
  | e :: es =>
    let '(self1, calls1) := handle self e in
    let '(self2, calls2) := run self1 es in
    (self2, calls1 ++ calls2)
  end.

(** The writers that are open after a sequence of calls. *)
Definition replay (active : gset nat) (c : WriterCall) : gset nat :=
  match c with
  | WOpen h _ => {[h]} ∪ active
  | WRelease h => active ∖ {[h]}
  | WWrite _ _ _ => active
  end.

Definition active_after (calls : list WriterCall) : gset nat :=
  fold_left replay calls ∅.

(** The one writer the window may hold open. *)
Definition holder (out : option nat) : gset nat :=
  match out with
  | Some h => {[h]}
  | None => ∅
  end.

(** At most one writer is open before, between and after the calls. *)
Fixpoint always_single (active : gset nat) (calls : list WriterCall) : Prop :=
  size active ≤ 1
  ∧ match calls with
    | [] => True
    | c :: calls => always_single (replay active c) calls
    end.

Lemma holder_size (out : option nat) (active : gset nat) :
  active ⊆ holder out → size active ≤ 1.
Proof.
  intros H. destruct out as [h|]; unfold holder in H;
    apply subseteq_size in H.
  - rewrite size_singleton in H. exact H.
  - rewrite size_empty in H. lia.
Qed.

Lemma always_single_app active cs1 cs2 :
  always_single active cs1 →
  always_single (fold_left replay cs1 active) cs2 →
  always_single active (cs1 ++ cs2).
Proof.
  revert active. induction cs1 as [|c cs1 IH]; intros active H1 H2; simpl in *.
  - exact H2.
  - destruct H1 as [H0 H1]. split; [exact H0|]. apply IH; assumption.
Qed.

Lemma always_single_prefix cs : ∀ active p,
  always_single active cs → p `prefix_of` cs →
  size (fold_left replay p active) ≤ 1.
Proof.
  induction cs as [|c cs IH]; intros active p H Hp.
  - apply prefix_nil_inv in Hp. subst p. exact (proj1 H).
  - destruct p as [|c' p]; simpl; [destruct H; assumption|].
    pose proof (prefix_cons_inv_1 _ _ _ _ Hp) as ->.
    apply prefix_cons_inv_2 in Hp. destruct H as [_ H]. apply IH; assumption.
Qed.

(** Rollover: every writer that was open is released before the new one
    is constructed, and the window then holds the new one. *)
Lemma start_new_save_file_owns ctor_raises self active :
  active ⊆ holder (recordOut self) →
  always_single active (start_new_save_file ctor_raises self).2
  ∧ fold_left replay (start_new_save_file ctor_raises self).2 active
      ⊆ holder (recordOut (start_new_save_file ctor_raises self).1).
Proof.
  intros H. pose proof (holder_size _ _ H) as Hs.
  unfold start_new_save_file.
  destruct (baseFilePath self) as [base|]; [|split; [split|]; auto].
  destruct (splitext base) as [base_name ext].
  destruct (recordOut self) as [h|], ctor_raises;
    cbn [fst snd app safe_release fold_left replay always_single recordOut
         holder] in *.
  - split; [repeat split; [assumption|]|set_solver].
    apply (holder_size None). set_solver.
  - split; [repeat split; [assumption| |]|set_solver].
    + apply (holder_size None). set_solver.
    + apply (holder_size (Some (writers_made self))). set_solver.
  - split; [repeat split|]; assumption.
  - split; [repeat split; [assumption|]|set_solver].
    apply (holder_size (Some (writers_made self))). set_solver.
Qed.

Lemma update_frame_owns frame now ctor wr self active :
  active ⊆ holder (recordOut self) →
  always_single active (update_frame frame now ctor wr self).2
  ∧ fold_left replay (update_frame frame now ctor wr self).2 active
      ⊆ holder (recordOut (update_frame frame now ctor wr self).1).
Proof.
  intros H. pose proof (holder_size _ _ H) as Hs.
  unfold update_frame.
  destruct (isRecording self); [|simpl; auto].
  destruct frame as [frame|]; [|simpl; auto].
  destruct (Qle_bool _ _).
  - pose proof (start_new_save_file_owns ctor self active H) as Hn.
    destruct (start_new_save_file ctor self) as [w' cs]. simpl in *.
    destruct Hn as [Ha Ho].
    destruct (recordOut w') as [h|] eqn:Hw; simpl; rewrite ?Hw; [|auto].
    split.
    + apply always_single_app; [assumption|]. simpl.
      pose proof (holder_size _ _ Ho). auto.
    + rewrite fold_left_app. simpl. assumption.
  - destruct (recordOut self) as [h|] eqn:Hw; simpl; rewrite ?Hw; auto.
Qed.

(** The frames of a dialog keep the window the owner of what is open. *)
Lemma deliver_owns frames : ∀ self active,
  active ⊆ holder (recordOut self) →
  always_single active (deliver frames self).2
  ∧ fold_left replay (deliver frames self).2 active
      ⊆ holder (recordOut (deliver frames self).1).
Proof.
  induction frames as [|d frames IH]; intros self active H; simpl.
  - split; [split; [exact (holder_size _ _ H)|exact I]|exact H].
  - destruct (update_frame_owns (shown_frame d) (shown_at d)
                (shown_ctor_raises d) (shown_write_raises d) self active H)
      as [Ha Ho].
    destruct (update_frame _ _ _ _ self) as [self1 calls1]. simpl in *.
    destruct (IH self1 _ Ho) as [Ha2 Ho2].
    destruct (deliver frames self1) as [self2 calls2]. simpl in *.
    split; [apply always_single_app; assumption|].
    rewrite fold_left_app. exact Ho2.
Qed.

Lemma handle_owns self e active :
  active ⊆ holder (recordOut self) →
  always_single active (handle self e).2
  ∧ fold_left replay (handle self e).2 active
      ⊆ holder (recordOut (handle self e).1).
Proof.
  intros H. pose proof (holder_size _ _ H) as Hs.
  destruct e as [| |during dialog now ctor|frame now ctor wr| |minutes|];
    simpl; try (split; [split; [assumption|exact I]|assumption]).
  - unfold start_recording.
    destruct (negb (captureThread self)); [simpl; auto|].
    destruct (isRecording self); [simpl; auto|].
    match goal with
    | |- context [deliver during ?w] =>
      pose proof (deliver_owns during w active H) as [Ha Ho];
      destruct (deliver during w) as [shown calls0]
    end. simpl in Ha, Ho.
    destruct (String.eqb dialog ""); [simpl; auto|].
    match goal with
    | |- context [start_new_save_file ?b ?w] =>
      pose proof (start_new_save_file_owns b w _ Ho) as [Hn1 Hn2];
      destruct (start_new_save_file b w) as [w' cs]
    end. simpl in *.
    split; [apply always_single_app; assumption|].
    rewrite fold_left_app. exact Hn2.
  - apply update_frame_owns. exact H.
  - unfold stop_recording. destruct (isRecording self); [|simpl; auto].
    destruct (recordOut self) as [h|]; simpl in *;
      (split; [repeat split; try assumption|]);
      try (eapply holder_size with (out := None); simpl; set_solver);
      set_solver.
  - destruct (recordOut self) as [h|]; simpl in *;
      (split; [repeat split; try assumption|]);
      try (eapply holder_size with (out := None); simpl; set_solver);
      set_solver.
Qed.

Lemma run_owns es : ∀ self active,
  active ⊆ holder (recordOut self) →
  always_single active (run self es).2.
Proof.
  induction es as [|e es IH]; intros self active H; simpl.
  - split; [exact (holder_size _ _ H)|exact I].
  - destruct (handle_owns self e active H) as [Ha Ho].
    destruct (handle self e) as [self1 calls1]. simpl in *.
    specialize (IH self1 _ Ho).
    destruct (run self1 es) as [self2 calls2]. simpl in *.
    apply always_single_app; assumption.
Qed.

(** C5. Replaying the writer calls of any run of the window, at most one
    writer is open after every prefix of the calls.  A rollover first
    releases the writer the window holds and only then constructs the
    next one; stopping the recording releases the writer it holds. *)
Theorem one_active_writer (now : Q) (es : list UiEvent) :
  (∀ p, p `prefix_of` (run (init now) es).2 → size (active_after p) ≤ 1)
  ∧ (∀ self base h ctor_raises,
       baseFilePath self = Some base → recordOut self = Some h →
       (start_new_save_file ctor_raises self).2 =
         WRelease h ::
         (if ctor_raises then []
          else [WOpen (writers_made self)
                  ((splitext base).1 +:+ "_part"
                   +:+ pretty (recordSegmentCounter self)
                   +:+ (splitext base).2)]))
  ∧ (∀ self h,
       isRecording self = true → recordOut self = Some h →
       (stop_recording self).2 = [WRelease h]
       ∧ recordOut (stop_recording self).1 = None).
Proof.
  split; [|split].
  - intros p Hp. unfold active_after.
    apply (always_single_prefix (run (init now) es).2); [|assumption].
    apply run_owns. simpl. set_solver.
  - intros self base h ctor Hb Ho. unfold start_new_save_file.
    rewrite Hb, Ho. destruct (splitext base), ctor; reflexivity.
  - intros self h Hrec Ho. unfold stop_recording.
    rewrite Hrec, Ho. split; reflexivity.
Qed.

End Window.

(** A stand-in for [os.path.splitext] on the one path used below. *)
Definition stub_splitext (path : string) : string * string :=
  if String.eqb path "videos/record.mp4" then ("videos/record", ".mp4")
  else (path, "").

(** One minute between rollovers: the frame at 61 s closes segment 0 and
    opens segment 1 before it is written. *)
Example rollover_run :
  let f := Ndarray 480 640 [7%Z] in
  (run stub_splitext (init 0)
     [StartCamera;
      StartRecording [] "videos/record.mp4" 0 false;
      FrameCaptured (Some f) (10 # 1) false false;
      FrameCaptured (Some f) (61 # 1) false false;
      StopRecording]).2
  = [WOpen 0 "videos/record_part0.mp4";
     WWrite 0 f false;
     WRelease 0;
     WOpen 1 "videos/record_part1.mp4";
     WWrite 1 f false;
     WRelease 1].
Proof. reflexivity. Qed.

Example rollover_run_active :
  map (fun p => elements (active_after p))
      [[WOpen 0 "a"]; [WOpen 0 "a"; WRelease 0];
       [WOpen 0 "a"; WRelease 0; WOpen 1 "b"]]
  = [[0]; []; [1]].
Proof. reflexivity. Qed.

End Recorder.


(** ** Stopping a session twice *)

(** C7. For a player and for a capture thread in any state, a second
    [stop()] after the first has returned leaves the object as it is and
    calls nothing: no timer call, no [release()], no signal, the flags as
    the first [stop()] left them.  Both [stop] methods are total: nothing
    is raised. *)
Theorem second_stop_is_noop :
  (forall (self : Player.VideoPlayer),
      let '(stopped, _) := Player.stop self in
      Player.stop stopped = (stopped, [])
      /\ Player.timer_active stopped = false
      /\ Player.cap stopped = None
      /\ Player.isPlaying stopped = false
      /\ Player.isPaused stopped = false)
  /\ (forall Detector detect cam (t : Capture.VideoCaptureThread Detector),
      let stopped := Capture.stop Detector detect cam t in
      Capture.stop Detector detect cam stopped = stopped
      /\ Capture.live (Capture.phase Detector stopped) = false
      /\ Capture._running Detector stopped = false).
Proof.
  split.
  - intros self. repeat split.
  - intros Detector detect cam t stopped.
    destruct (Capture.stop_returns Detector detect cam t) as [Hl Hr].
    split; [apply Capture.stop_again|]. split; assumption.
Qed.


(** * Further properties of the same code *)

(** ** detection.py: counters, schedule, cache and call protocol *)

Module DetectionMore.

Import Detection.

Definition is_array (v : PyVal) : bool :=
  match v with
  | Arr _ => true
  | Obj _ => false
  end.


Section Adapter.

Variables Model Results : Type.
Variable cv2_resize : ndarray -> nat * nat -> Res ndarray.
Variable call_model :
  Model -> ndarray -> Q -> PyObj -> Model * Res (list Results).
Variable plot : Results -> Res ndarray.

Local Abbreviation detect := (detect_and_plot Model Results cv2_resize call_model plot).
Local Abbreviation infer := (run_inference Model Results cv2_resize call_model plot).
Local Abbreviation run := (run_calls Model Results cv2_resize call_model plot).
Local Abbreviation Detector := (YoloDetector Model).
Local Abbreviation fcount := (frame_count Model).
Local Abbreviation skip := (skip_frames Model).
Local Abbreviation cached := (last_result Model).
Local Abbreviation ok_call := (servable cv2_resize).

(** Calls of a sequence whose frame is an array. *)
Definition array_calls (calls : list Call) : nat :=
  length (List.filter (fun c => is_array (arg_frame c)) calls).

Ltac split_run :=
  repeat match goal with
  | |- context [match ?x with _ => _ end] =>
    lazymatch x with
    | context [match _ with _ => _ end] => fail
    | _ => destruct x eqn:?
    end
  end.

(** X1. The frame counter counts exactly the calls that were given an
    array, whether they skipped, inferred or raised; [skip_frames] never
    changes. *)
Theorem counter_counts_array_calls (calls : list Call) : forall self : Detector,
  fcount (run self calls).1 = fcount self + Z.of_nat (array_calls calls)
  /\ skip (run self calls).1 = skip self.
Proof.
  induction calls as [|c rest IH]; intros self.
  - unfold array_calls. simpl. split; [lia|reflexivity].
  - unfold array_calls in *. cbn [run_calls List.filter].
    destruct (arg_frame c) as [o|f] eqn:Hf; cbn [is_array].
    + assert (Hr : detect self (Obj o) (arg_conf c) (arg_classes c)
                   = (self, Ok None, [])) by reflexivity.
      rewrite Hr. specialize (IH self).
      destruct (run self rest) as [s logs]. exact IH.
    + pose proof (detect_and_plot_counters Model Results cv2_resize
                    call_model plot self f (arg_conf c) (arg_classes c)) as H.
      destruct (detect self (Arr f) (arg_conf c) (arg_classes c))
        as [[self1 out] ev].
      destruct H as [Hfc Hsk]. specialize (IH self1).
      destruct (run self1 rest) as [s logs].
      cbn [fst length] in *. rewrite Hfc, Hsk in IH.
      destruct IH as [IH1 IH2]. split; [lia|assumption].
Qed.



(** X3. After any sequence of calls the cached frame is what the most
    recent completed inference of the sequence handed back, and the cache
    from before when there was none: skipped calls, rejected frames,
    raising calls and failed model calls leave the cache alone. *)
Theorem cache_tracks_history (calls : list Call) : forall self : Detector,
  cached (run self calls).1 =
    cache_after Results (cached self) (run self calls).2.
Proof.
  induction calls as [|c rest IH]; intros self; simpl; [reflexivity|].
  pose proof (last_result_step Model Results cv2_resize call_model plot self
                (arg_frame c) (arg_conf c) (arg_classes c)) as Hstep.
  destruct (detect self (arg_frame c) (arg_conf c) (arg_classes c))
    as [[self1 out] ev].
  specialize (IH self1). destruct (run self1 rest) as [s logs]. simpl in *.
  rewrite IH, Hstep. unfold cache_after. simpl.
  destruct (most_recent_result Results logs); reflexivity.
Qed.

(** What the model is given in any invocation. *)
Lemma infer_event_args (self : Detector) frame conf classes img c cls out :
  In (Infer img c cls out) (detect self (Arr frame) conf classes).2 ->
  cv2_resize frame WORK_SIZE = Ok img
  /\ c = conf
  /\ check_classes classes = Ok cls.
Proof.
  unfold detect_and_plot, run_inference.
  split_run; simpl; intros Hin;
    repeat match goal with
    | H : In _ (_ :: _) |- _ => destruct H
    | H : _ \/ _ |- _ => destruct H
    | H : False |- _ => destruct H
    end; try discriminate;
    match goal with
    | H : Infer _ _ _ _ = Infer _ _ _ _ |- _ => injection H as <- <- <- <-
    end; auto.
Qed.

(** X4. A call makes at most one model invocation, and the model only
    ever sees the output of [cv2.resize] on the call's own frame, with the
    caller's threshold and the class filter that passed the format
    check. *)
Theorem model_sees_resized_frame (self : Detector) frame conf classes :
  let ev := (detect self (Arr frame) conf classes).2 in
  (length (List.filter (is_infer Results) ev) <= 1)%nat
  /\ forall img c cls out, In (Infer img c cls out) ev ->
       cv2_resize frame WORK_SIZE = Ok img
       /\ c = conf
       /\ check_classes classes = Ok cls.
Proof.
  split; [|intros img c cls out; apply infer_event_args].
  unfold detect_and_plot, run_inference. split_run; simpl; lia.
Qed.


(** X6. With a negative [skip_frames] the model is never invoked: at [-1]
    every call on an array raises [ZeroDivisionError], below [-1] every
    call is served as a skipped one. *)
Theorem negative_skip_never_infers (self : Detector) frame conf classes :
  skip_frames Model self < 0 ->
  let '(_, out, ev) :=
    detect_and_plot Model Results cv2_resize call_model plot
      self (Arr frame) conf classes in
  ev = []
  /\ (skip_frames Model self = -1 -> out = Raise ZeroDivisionError)
  /\ (skip_frames Model self < -1 ->
      out = Ok (Some (default frame (last_result Model self)))).
Proof.
  intros Hneg.
  destruct (Z.eq_dec (skip self) (-1)) as [H1|H1].
  - unfold detect_and_plot, py_mod. simpl. rewrite H1. simpl.
    repeat split; auto. lia.
  - rewrite detect_and_plot_skipped.
    + repeat split; auto. contradiction.
    + lia.
    + unfold skipped. apply negb_true_iff, Z.eqb_neq.
      pose proof (Z.mod_neg_bound (fcount self + 1) (skip self + 1)).
      lia.
Qed.

(** X7. Given an array, [detect_and_plot] never returns [None]: it
    returns a frame or raises. *)
Theorem array_never_yields_none (self : Detector) frame conf classes :
  (detect_and_plot Model Results cv2_resize call_model plot
     self (Arr frame) conf classes).1.2 <> Ok None.
Proof.
  unfold detect_and_plot, run_inference. split_run; simpl; discriminate.
Qed.

End Adapter.



Lemma negative_skip_never_infers_witness :
  let '(_, out, ev) :=
    stub_detect (init nat 0%nat (-1)) (Arr (full_hd 1)) default_conf PyNone in
  ev = []
  /\ (skip_frames nat (init nat 0%nat (-1)) = -1 ->
      out = Raise ZeroDivisionError)
  /\ (skip_frames nat (init nat 0%nat (-1)) < -1 ->
      out = Ok (Some (default (full_hd 1)
                        (last_result nat (init nat 0%nat (-1)))))).
Proof.
  apply (negative_skip_never_infers nat ndarray stub_resize stub_model
           stub_plot (init nat 0%nat (-1)) (full_hd 1) default_conf PyNone).
  simpl. lia.
Defined.

End DetectionMore.


(** ** capture_thread.py: signals, detector failures, life after [stop] *)

Module CaptureMore.

Import Capture.

Definition is_frame_signal (e : Effect) : bool :=
  match e with
  | FrameCaptured _ => true
  | _ => false
  end.

Definition is_read (e : Effect) : bool :=
  match e with
  | CapRead _ _ => true
  | _ => false
  end.

(** A [read()] that returned a frame. *)
Definition is_good_read (e : Effect) : bool :=
  match e with
  | CapRead true (Some _) => true
  | _ => false
  end.

Definition count (p : Effect -> bool) (tr : list Effect) : nat :=
  length (List.filter p tr).

Lemma count_app p (a b : list Effect) :
  count p (a ++ b) = (count p a + count p b)%nat.
Proof. unfold count. rewrite List.filter_app, List.length_app. reflexivity. Qed.

Section Thread.

Variable Detector : Type.
Variable detect : Detector -> ndarray -> Detector * Res (option ndarray).

Local Abbreviation Thread := (VideoCaptureThread Detector).
Local Abbreviation step := (worker_step Detector detect).
Local Abbreviation schedule := (run_schedule Detector detect).
Local Abbreviation trace_of := (trace Detector).

Ltac open_step :=
  unfold worker_step, run_open, run_iteration, run_cleanup, run_detect, read;
  repeat match goal with
  | |- context [match ?x with _ => _ end] =>
    lazymatch x with
    | context [match _ with _ => _ end] => fail
    | _ => destruct x eqn:?
    end
  end.

(** One slice keeps the numbers of frame signals and of good reads in
    step. *)
Lemma step_balance cam (t : Thread) :
  (count is_frame_signal (trace_of (step cam t))
   + count is_good_read (trace_of t)
   = count is_frame_signal (trace_of t)
     + count is_good_read (trace_of (step cam t)))%nat.
Proof.
  open_step; simpl; rewrite ?count_app; unfold count; simpl; lia.
Qed.

Lemma wait_balance cam fuel : forall t : Thread,
  count is_frame_signal (trace_of t) = count is_good_read (trace_of t) ->
  count is_frame_signal (trace_of (wait Detector detect fuel cam t))
  = count is_good_read (trace_of (wait Detector detect fuel cam t)).
Proof.
  induction fuel as [|n IH]; intros t H.
  - rewrite wait_zero. exact H.
  - rewrite wait_unfold. destruct (live (phase Detector t)); [|exact H].
    apply IH. pose proof (step_balance cam t). lia.
Qed.

(** X8. In every run of a capture thread the number of [frameCaptured]
    signals equals the number of [read()] calls that returned a frame:
    no frame read is dropped and none is emitted twice, whatever the
    detector does. *)
Theorem every_good_read_is_emitted cam index w h f d (acts : list Action) :
  let t := schedule cam (init Detector index w h f d) acts in
  count is_frame_signal (trace_of t) = count is_good_read (trace_of t).
Proof.
  simpl.
  assert (Hgen : forall acts (t : Thread),
            count is_frame_signal (trace_of t)
            = count is_good_read (trace_of t) ->
            count is_frame_signal (trace_of (schedule cam t acts))
            = count is_good_read (trace_of (schedule cam t acts))).
  { clear acts. induction acts as [|a acts IH]; intros t H; simpl; [exact H|].
    apply IH. destruct a; simpl.
    - unfold start. destruct (phase Detector t); exact H.
    - pose proof (step_balance cam t). lia.
    - unfold stop. apply wait_balance. exact H. }
  apply Hgen. reflexivity.
Qed.

(** A slice of a thread whose flag is cleared reads nothing and emits no
    frame. *)
Lemma stopped_step_quiet cam (t : Thread) :
  _running Detector t = false ->
  count is_read (trace_of (step cam t)) = count is_read (trace_of t)
  /\ count is_frame_signal (trace_of (step cam t))
     = count is_frame_signal (trace_of t).
Proof.
  intros Hr. unfold worker_step, run_open, run_iteration, run_cleanup.
  rewrite Hr. simpl.
  repeat match goal with
  | |- context [match ?x with _ => _ end] =>
    lazymatch x with
    | context [match _ with _ => _ end] => fail
    | _ => destruct x eqn:?
    end
  end; simpl; rewrite ?count_app; unfold count; simpl; split; lia.
Qed.

Lemma stopped_wait_quiet cam fuel : forall t : Thread,
  _running Detector t = false ->
  count is_read (trace_of (wait Detector detect fuel cam t))
  = count is_read (trace_of t)
  /\ count is_frame_signal (trace_of (wait Detector detect fuel cam t))
     = count is_frame_signal (trace_of t).
Proof.
  induction fuel as [|n IH]; intros t Hr.
  - rewrite wait_zero. auto.
  - rewrite wait_unfold. destruct (live (phase Detector t)); [|auto].
    destruct (stopped_step_quiet cam t Hr) as [H1 H2].
    destruct (IH (step cam t)) as [H3 H4].
    + rewrite step_running. exact Hr.
    + split; congruence.
Qed.

Lemma stopped_act_quiet cam (t : Thread) a :
  _running Detector t = false ->
  _running Detector (act Detector detect cam t a) = false
  /\ count is_read (trace_of (act Detector detect cam t a))
     = count is_read (trace_of t)
  /\ count is_frame_signal (trace_of (act Detector detect cam t a))
     = count is_frame_signal (trace_of t).
Proof.
  intros Hr. destruct a; simpl.
  - unfold start. destruct (phase Detector t); simpl; auto.
  - rewrite step_running. split; [exact Hr|]. apply stopped_step_quiet, Hr.
  - unfold stop. rewrite wait_running. split; [reflexivity|].
    apply (stopped_wait_quiet cam 2 (set_running Detector t false)).
    reflexivity.
Qed.

(** X9. Once [stop()] has returned, nothing makes the thread read the
    camera or emit a frame again: not further slices, not a second
    [stop()], not even [start()], since no method sets [_running] back to
    [True]. *)
Theorem no_read_after_stop cam (t : Thread) (acts : list Action) :
  let stopped := stop Detector detect cam t in
  count is_read (trace_of (schedule cam stopped acts))
  = count is_read (trace_of stopped)
  /\ count is_frame_signal (trace_of (schedule cam stopped acts))
     = count is_frame_signal (trace_of stopped).
Proof.
  simpl.
  assert (Hgen : forall acts (s : Thread), _running Detector s = false ->
            count is_read (trace_of (schedule cam s acts))
            = count is_read (trace_of s)
            /\ count is_frame_signal (trace_of (schedule cam s acts))
               = count is_frame_signal (trace_of s)).
  { clear acts. induction acts as [|a acts IH]; intros s Hr; simpl; [auto|].
    destruct (stopped_act_quiet cam s a Hr) as (Hr' & H1 & H2).
    destruct (IH _ Hr') as [H3 H4]. split; congruence. }
  apply Hgen. unfold stop. rewrite wait_running. reflexivity.
Qed.

(** [time.sleep] on line 63 accepts exactly the non-negative [fps] values
    that fit a double. *)
Lemma sleep_raises_none (f : Z) :
  sleep_raises f = None <-> 0 <= f < FLOAT_LIMIT.
Proof.
  unfold sleep_raises, float_of_int_overflows. generalize FLOAT_LIMIT.
  intros L.
  destruct (Z.leb_spec L (Z.abs f)); [split; [discriminate|lia]|].
  destruct (Z.ltb_spec f 0); [split; [discriminate|lia]|].
  split; [lia|reflexivity].
Qed.

(** X10. A detector that raises does not end the loop.  After a
    successful read the thread emits exactly one frame, whatever the
    detector answers; when it raises, the failure is printed and the
    frame goes out as it was read.  The thread then stays in the loop
    when [fps] is a non-negative int in the double range; for any other
    [fps] the [time.sleep] of line 63 raises ([ValueError] for a negative
    one) and [run] ends there, after the frame was emitted. *)
Theorem detector_failure_keeps_loop cam (t : Thread) c frame :
  phase Detector t = Looping ->
  _running Detector t = true ->
  cap Detector t = Some c ->
  isOpened c = true ->
  feed cam (reads c) = (true, Some frame) ->
  (0 <= fps Detector t < FLOAT_LIMIT -> phase Detector (step cam t) = Looping)
  /\ (forall e, sleep_raises (fps Detector t) = Some e ->
        phase Detector (step cam t) = Finished (Crashed e))
  /\ (fps Detector t < 0 -> sleep_raises (fps Detector t) <> None)
  /\ count is_frame_signal (trace_of (step cam t))
     = S (count is_frame_signal (trace_of t))
  /\ forall d d' e,
       detector Detector t = Some d -> detect d frame = (d', Raise e) ->
       trace_of (step cam t) =
         trace_of t ++ [CapRead true (Some frame); DetectorFailed e;
                        FrameCaptured (Some frame)]
                    ++ match sleep_raises (fps Detector t) with
                       | None => [Sleep]
                       | Some _ => []
                       end.
Proof.
  intros Hp Hr Hc Ho Hf.
  pose proof (sleep_raises_none (fps Detector t)) as Hsleep.
  unfold worker_step, run_iteration, run_detect, read.
  rewrite Hp, Hr, Hc, Ho, Hf. simpl.
  split; [|split; [|split]].
  - intros Hfps. apply Hsleep in Hfps.
    destruct (detector Detector t) as [d|];
      [destruct (detect d frame) as [d1 [v|e]]|]; simpl;
      rewrite Hfps; simpl; assumption.
  - intros e He.
    destruct (detector Detector t) as [d|];
      [destruct (detect d frame) as [d1 [v|e']]|]; simpl;
      rewrite He; reflexivity.
  - intros Hneg Hnone. apply Hsleep in Hnone. lia.
  - destruct (detector Detector t) as [d|] eqn:Hd;
      [destruct (detect d frame) as [d1 [v|e]] eqn:Hdet|]; simpl;
      destruct (sleep_raises (fps Detector t)); simpl;
      rewrite ?count_app; unfold count; simpl;
      (split; [lia|]); intros d0 d' e0 [= <-] Hx;
      rewrite Hdet in Hx; try discriminate;
      injection Hx as <- <-; rewrite <- !app_assoc; reflexivity.
Qed.

(** A detector that never answers [None] never makes the loop emit
    [None]. *)
Lemma frames_not_none cam (acts : list Action) :
  (forall d frame, (detect d frame).2 <> Ok None) ->
  forall t : Thread,
    Forall (fun e => e <> FrameCaptured None) (trace_of t) ->
    Forall (fun e => e <> FrameCaptured None) (trace_of (schedule cam t acts)).
Proof.
  intros Hdet.
  assert (Hstep : forall t : Thread,
            Forall (fun e => e <> FrameCaptured None) (trace_of t) ->
            Forall (fun e => e <> FrameCaptured None) (trace_of (step cam t))).
  { intros t H. unfold worker_step, run_open, run_iteration, run_cleanup,
      run_detect, read.
    repeat match goal with
    | |- context [match ?x with _ => _ end] =>
      lazymatch x with
      | context [match _ with _ => _ end] => fail
      | _ => destruct x eqn:?
      end
    end; simpl; rewrite ?Forall_app; repeat split; auto;
      repeat constructor; try discriminate.
    all: match goal with
         | Hd : detect ?d ?fr = (_, Ok ?v) |- _ =>
           intros [= ->]; apply (Hdet d fr); rewrite Hd; reflexivity
         end. }
  assert (Hwait : forall fuel (t : Thread),
            Forall (fun e => e <> FrameCaptured None) (trace_of t) ->
            Forall (fun e => e <> FrameCaptured None)
                   (trace_of (wait Detector detect fuel cam t))).
  { induction fuel as [|n IH]; intros t H.
    - rewrite wait_zero. exact H.
    - rewrite wait_unfold. destruct (live (phase Detector t)); auto. }
  induction acts as [|a acts IH]; intros t H; simpl; [exact H|].
  apply IH. destruct a; simpl.
  - unfold start. destruct (phase Detector t); exact H.
  - apply Hstep, H.
  - unfold stop. apply Hwait. exact H.
Qed.

(** Outside the loop the thread holds no open capture. *)
Definition closed_unless_looping (t : Thread) : Prop :=
  phase Detector t = Looping
  \/ forall c, cap Detector t = Some c -> isOpened c = false.

(** No method and no slice of [run] assigns [self.fps]. *)
Lemma step_fps cam (t : Thread) : fps Detector (step cam t) = fps Detector t.
Proof. open_step; reflexivity. Qed.

Lemma wait_fps cam fuel : forall t : Thread,
  fps Detector (wait Detector detect fuel cam t) = fps Detector t.
Proof.
  induction fuel as [|n IH]; intros t; [rewrite wait_zero; reflexivity|].
  rewrite wait_unfold. destruct (live (phase Detector t)); [|reflexivity].
  rewrite IH. apply step_fps.
Qed.

Lemma act_fps cam (t : Thread) a :
  fps Detector (act Detector detect cam t a) = fps Detector t.
Proof.
  destruct a; simpl.
  - unfold start. destruct (phase Detector t); reflexivity.
  - apply step_fps.
  - unfold stop. rewrite wait_fps. reflexivity.
Qed.

Lemma closed_step cam (t : Thread) :
  sleep_raises (fps Detector t) = None ->
  closed_unless_looping t -> closed_unless_looping (step cam t).
Proof.
  unfold closed_unless_looping, worker_step. intros Hs H.
  destruct (phase Detector t) eqn:Hp.
  - right. destruct H as [H|H]; [discriminate|exact H].
  - destruct H as [H|H]; [discriminate|].
    unfold run_open.
    destruct (open_dshow cam) as [[|]|]; simpl; auto;
      try (right; intros c [= <-]; reflexivity);
      destruct (open_plain cam) as [[|]|]; simpl; auto;
      right; intros c [= <-]; reflexivity.
  - clear H. unfold run_iteration, run_cleanup, run_detect, read.
    repeat match goal with
    | |- context [match ?x with _ => _ end] =>
      lazymatch x with
      | context [match _ with _ => _ end] => fail
      | _ => destruct x eqn:?
      end
    end; simpl in *; rewrite ?Hp; auto; try congruence;
      right; intros c0 Hc0; try discriminate; try congruence;
      injection Hc0 as <-; reflexivity.
  - right. destruct H as [H|H]; [discriminate|exact H].
Qed.

Lemma closed_wait cam fuel : forall t : Thread,
  sleep_raises (fps Detector t) = None ->
  closed_unless_looping t ->
  closed_unless_looping (wait Detector detect fuel cam t).
Proof.
  induction fuel as [|n IH]; intros t Hs H.
  - rewrite wait_zero. exact H.
  - rewrite wait_unfold. destruct (live (phase Detector t)); auto.
    apply IH; [rewrite step_fps; exact Hs|]. apply closed_step; assumption.
Qed.

Lemma closed_schedule cam acts : forall t : Thread,
  sleep_raises (fps Detector t) = None ->
  closed_unless_looping t -> closed_unless_looping (schedule cam t acts).
Proof.
  induction acts as [|a acts IH]; intros t Hs H; simpl; [exact H|].
  apply IH; [rewrite act_fps; exact Hs|]. destruct a; simpl.
  - unfold start, closed_unless_looping in *.
    destruct (phase Detector t) eqn:Hp; simpl; rewrite ?Hp; auto;
      destruct H as [H|H]; try discriminate; auto.
  - apply closed_step; assumption.
  - unfold stop. apply closed_wait; assumption.
Qed.

Lemma schedule_fps cam acts : forall t : Thread,
  fps Detector (schedule cam t acts) = fps Detector t.
Proof.
  induction acts as [|a acts IH]; intros t; simpl; [reflexivity|].
  rewrite IH. apply act_fps.
Qed.

(** X29. For a thread built with a non-negative [fps] in the double
    range: after [stop()] has returned in any state the thread can reach,
    the worker is out of [run] and the thread holds no open capture,
    whichever way [run] ended: released after the loop, never opened, or
    never constructed. *)
Theorem stop_leaves_no_open_capture cam index w h f d (acts : list Action) :
  0 <= f < FLOAT_LIMIT ->
  let t := stop Detector detect cam
             (schedule cam (init Detector index w h f d) acts) in
  live (phase Detector t) = false
  /\ forall c, cap Detector t = Some c -> isOpened c = false.
Proof.
  intros Hf. apply sleep_raises_none in Hf. simpl.
  set (before := schedule cam (init Detector index w h f d) acts).
  destruct (stop_returns Detector detect cam before) as [Hl _].
  split; [exact Hl|].
  assert (Hfps : fps Detector before = f) by apply schedule_fps.
  assert (Hc : closed_unless_looping (stop Detector detect cam before)).
  { unfold stop. apply closed_wait; [simpl; congruence|].
    assert (Hb : closed_unless_looping before)
      by (apply closed_schedule; [exact Hf|right; discriminate]).
    exact Hb. }
  destruct Hc as [Hp|Hc]; [|exact Hc].
  rewrite Hp in Hl. discriminate.
Qed.

End Thread.

(** X11. With a [YoloDetector] plugged in, every [frameCaptured] signal
    of every run carries a frame: the thread only hands arrays to
    [detect_and_plot], which answers an array with a frame or an
    exception, never with [None]. *)
Theorem capture_never_emits_none {Model Results} resize run_model plot
    cam index w h f (d : option (Detection.YoloDetector Model))
    (acts : list Action) :
  Forall (fun e => e <> FrameCaptured None)
    (trace _ (run_schedule _ (@loop_detector Model Results resize run_model plot)
                cam (init _ index w h f d) acts)).
Proof.
  apply frames_not_none; [|constructor].
  intros self frame. unfold loop_detector. simpl.
  unfold Detection.detect_and_plot, Detection.run_inference.
  repeat match goal with
  | |- context [match ?x with _ => _ end] =>
    lazymatch x with
    | context [match _ with _ => _ end] => fail
    | _ => destruct x eqn:?
    end
  end; simpl; discriminate.
Qed.

Lemma detector_failure_keeps_loop_witness :
  let raising (d : unit) (frame : ndarray) :=
    (d, @Raise (option ndarray) (ExternalError "detector")) in
  let t := run_schedule unit raising short_camera
             (init unit (PyInt 0) 640 480 30 (Some tt)) [DoStart; Slice] in
  let frame := Ndarray 480 640 [10] in
  let t' := worker_step unit raising short_camera t in
  (0 <= fps unit t < FLOAT_LIMIT -> phase unit t' = Looping)
  /\ (forall e, sleep_raises (fps unit t) = Some e ->
        phase unit t' = Finished (Crashed e))
  /\ (fps unit t < 0 -> sleep_raises (fps unit t) <> None)
  /\ count is_frame_signal (trace unit t')
     = S (count is_frame_signal (trace unit t))
  /\ forall d d' e,
       detector unit t = Some d -> raising d frame = (d', Raise e) ->
       trace unit t' =
         trace unit t ++ [CapRead true (Some frame); DetectorFailed e;
                          FrameCaptured (Some frame)]
                      ++ match sleep_raises (fps unit t) with
                         | None => [Sleep]
                         | Some _ => []
                         end.
Proof.
  intros raising t frame t'.
  apply (detector_failure_keeps_loop unit raising short_camera t
           (mkVideoCapture true 0 0) frame); reflexivity.
Defined.

(** A thread built with [fps = -1]: the first frame is emitted, then
    [time.sleep] raises and [run] ends with the capture still open;
    [stop()] finds the worker gone and releases nothing. *)
Example negative_fps_leaves_capture_open :
  let t := run_schedule unit (fun d f => (d, Ok (Some f))) short_camera
             (init unit (PyInt 0) 640 480 (-1) None)
             [DoStart; Slice; Slice; DoStop] in
  phase unit t = Finished (Crashed ValueError)
  /\ cap unit t = Some (mkVideoCapture true 1 0)
  /\ trace unit t = [CapSet CAP_PROP_FRAME_WIDTH 640;
                     CapSet CAP_PROP_FRAME_HEIGHT 480;
                     CapSet CAP_PROP_FPS (-1);
                     CapRead true (Some (Ndarray 480 640 [10]));
                     FrameCaptured (Some (Ndarray 480 640 [10]))].
Proof. repeat split. Qed.

Lemma stop_leaves_no_open_capture_witness :
  let t := stop unit (fun d f => (d, Ok (Some f))) short_camera
             (run_schedule unit (fun d f => (d, Ok (Some f))) short_camera
                (init unit (PyInt 0) 640 480 30 None) [DoStart; Slice; Slice]) in
  0 <= 30 < FLOAT_LIMIT
  /\ live (phase unit t) = false
  /\ forall c, cap unit t = Some c -> isOpened c = false.
Proof.
  assert (H30 : 0 <= 30 < FLOAT_LIMIT) by (split; [lia|reflexivity]).
  split; [exact H30|].
  apply (stop_leaves_no_open_capture unit (fun d f => (d, Ok (Some f)))
           short_camera (PyInt 0) 640 480 30 None [DoStart; Slice; Slice] H30).
Defined.

End CaptureMore.


(** ** video_player.py: what a run of timer ticks delivers *)

Module PlayerMore.

Import Player.

Local Open Scope nat_scope.



(** A player in the middle of a file of arrays. *)
Definition playing_at (path : string) (f : Z) (frames : list ndarray)
    (pos : nat) : VideoPlayer :=
  mkVideoPlayer path (Some (mkVideoCapture (map Arr frames) pos true))
    true false f true.




(** The player after [stop()]. *)
Definition stopped (path : string) (f : Z) : VideoPlayer :=
  mkVideoPlayer path None false false f false.


Section Files.

Variable decode : string -> option (list PyVal).



End Files.





End PlayerMore.


(** ** main_window.py: the playback methods *)

Module WindowPlayback.

(** Calls the window makes on its widgets and, through the player, on the
    timer and the capture. *)
Inductive UiCall :=
| FromPlayer (e : Player.Effect)
| SliderSetValue (v : Z)
| SliderSetEnabled (b : bool)
| SliderSetMinimum (v : Z)
| SliderSetMaximum (v : Z)
| BtnPlaySetEnabled (b : bool)
| BtnPauseSetEnabled (b : bool)
| BtnStopSetEnabled (b : bool)
| VideoLabelReset
| OpenCapture (path : string)
| CriticalCannotOpen
| LogLoaded (path : string).

(** The playback fields of the main window. *)
Record Window := mkWindow {
  videoPlayer : option Player.VideoPlayer;
  isPlaying : bool;
  isPaused : bool;
  currentFps : Z
}.

Definition stop_video (self : Window) : Window * list UiCall :=
  let player_calls :=
    match videoPlayer self with
    | Some p => map FromPlayer (Player.stop p).2
    | None => []
    end in
  ({| videoPlayer := None; isPlaying := false; isPaused := false;
      currentFps := currentFps self |},
   player_calls ++
   [SliderSetValue 0; SliderSetEnabled false; BtnPlaySetEnabled false;
    BtnPauseSetEnabled false; BtnStopSetEnabled false; VideoLabelReset]).

Definition play_video (self : Window) : Window * list UiCall :=
  match videoPlayer self with
  | None => (self, [])
  | Some p =>
    let '(p, calls) := Player.start p in
    ({| videoPlayer := Some p; isPlaying := true; isPaused := false;
        currentFps := currentFps self |},
     map FromPlayer calls)
  end.

Definition pause_video (self : Window) : Window * list UiCall :=
  match videoPlayer self with
  | None =>
    ({| videoPlayer := None; isPlaying := isPlaying self; isPaused := true;
        currentFps := currentFps self |}, [])
  | Some p =>
    let '(p, calls) := Player.pause p in
    ({| videoPlayer := Some p; isPlaying := isPlaying self; isPaused := true;
        currentFps := currentFps self |},
     map FromPlayer calls)
  end.

Section Files.

Variable decode : string -> option (list PyVal).

(** [load_video]; [filePath] is what the open dialog returns, empty when
    the user cancels.  [OpenCapture] is the [cv2.VideoCapture(filePath)]
    of [VideoPlayer.open]. *)
Definition load_video (filePath : string) (self : Window)
    : Window * list UiCall :=
  if String.eqb filePath "" then (self, [])
  else
    let '(self, stopped) := stop_video self in
    let '(p, opened) :=
      Player.open decode (Player.init filePath (currentFps self)) in
    if negb opened then
      ({| videoPlayer := None; isPlaying := isPlaying self;
          isPaused := isPaused self; currentFps := currentFps self |},
       stopped ++ [OpenCapture filePath; CriticalCannotOpen])
    else
      let total_frames := Z.of_nat (Player.get_total_frames p) in
      ({| videoPlayer := Some p; isPlaying := isPlaying self;
          isPaused := isPaused self; currentFps := currentFps self |},
       stopped ++
       [OpenCapture filePath;
        SliderSetEnabled true; SliderSetMinimum 0;
        SliderSetMaximum (Z.max (total_frames - 1) 0); SliderSetValue 0;
        BtnPlaySetEnabled true; BtnPauseSetEnabled true;
        BtnStopSetEnabled true; LogLoaded filePath]).

(** The widget part of [stop_video]. *)
Definition widgets_reset : list UiCall :=
  [SliderSetValue 0; SliderSetEnabled false; BtnPlaySetEnabled false;
   BtnPauseSetEnabled false; BtnStopSetEnabled false; VideoLabelReset].

(** What [VideoPlayer.stop] does to a player the window holds. *)
Definition teardown (held : option Player.VideoPlayer) : list UiCall :=
  match held with
  | None => []
  | Some p =>
    (if Player.timer_active p then [FromPlayer Player.TimerStop] else [])
    ++ match Player.cap p with
       | Some _ => [FromPlayer Player.CapRelease]
       | None => []
       end
  end.

(** X15. [pause_video] sets the window's [isPaused] and leaves its
    [isPlaying] alone: after [play_video] and [pause_video] on a loaded
    window both window flags are true, while the player's own flags read
    paused and not playing. *)
Theorem window_flags_both_set (self : Window) p :
  videoPlayer self = Some p ->
  let w := (pause_video (play_video self).1).1 in
  isPlaying w = true /\ isPaused w = true
  /\ exists q, videoPlayer w = Some q
       /\ Player.isPlaying q = false /\ Player.isPaused q = true.
Proof.
  intros Hp. unfold play_video, pause_video. rewrite Hp. simpl.
  repeat split. eexists. repeat split.
Qed.

(** X16. Loading a file first tears the current playback down, whether
    or not the new file can be opened: the timer of the player in use is
    stopped and its capture released, once each, and the widgets are
    reset, all before [cv2.VideoCapture] is called on the new path; no
    release follows.  Both window flags end cleared.  When the new file
    cannot be opened the window is left with no player and the error box
    is the last call; when it can, the window holds a fresh player on the
    new file, at its first frame, neither playing nor paused. *)
Theorem load_tears_down_first (self : Window) path :
  path <> "" ->
  let '(w, calls) := load_video path self in
  exists tail,
    calls = teardown (videoPlayer self) ++ widgets_reset
            ++ OpenCapture path :: tail
    /\ (forall e, In (FromPlayer e) tail -> False)
    /\ isPlaying w = false /\ isPaused w = false
    /\ currentFps w = currentFps self
    /\ match decode path with
       | None => videoPlayer w = None /\ tail = [CriticalCannotOpen]
       | Some frames =>
         videoPlayer w =
           Some (Player.mkVideoPlayer path
                   (Some (Player.mkVideoCapture frames 0 true))
                   false false (currentFps self) false)
         /\ last tail = Some (LogLoaded path)
       end.
Proof.
  intros Hne. unfold load_video.
  destruct (String.eqb_spec path "") as [->|_]; [contradiction|].
  unfold stop_video, Player.open, Player.stop, teardown, widgets_reset.
  destruct (videoPlayer self) as [p|];
    [destruct (Player.timer_active p), (Player.cap p)|];
    simpl; destruct (decode path) as [frames|]; simpl; eexists;
    (split; [reflexivity|]);
    (split; [intros e Hin; simpl in Hin;
             repeat (destruct Hin as [Hin|Hin]; [discriminate|]);
             exact Hin|]);
    repeat split.
Qed.

End Files.

Definition no_file (path : string) : option (list PyVal) := None.

Lemma window_flags_both_set_witness :
  let self := mkWindow (Some (Player.init "clip.mp4" 30)) false false 30 in
  let w := (pause_video (play_video self).1).1 in
  isPlaying w = true /\ isPaused w = true
  /\ exists q, videoPlayer w = Some q
       /\ Player.isPlaying q = false /\ Player.isPaused q = true.
Proof.
  apply (window_flags_both_set
           (mkWindow (Some (Player.init "clip.mp4" 30)) false false 30)
           (Player.init "clip.mp4" 30)).
  reflexivity.
Defined.

(** A window playing one file loads another that cannot be opened, then
    one that can. *)
Lemma load_tears_down_first_witness :
  let self := mkWindow (Some (PlayerMore.playing_at "a.mp4" 30 [] 0))
                true false 30 in
  (let '(w, calls) := load_video no_file "gone.mp4" self in
   exists tail,
     calls = teardown (videoPlayer self) ++ widgets_reset
             ++ OpenCapture "gone.mp4" :: tail
     /\ (forall e, In (FromPlayer e) tail -> False)
     /\ isPlaying w = false /\ isPaused w = false
     /\ currentFps w = currentFps self
     /\ match no_file "gone.mp4" with
        | None => videoPlayer w = None /\ tail = [CriticalCannotOpen]
        | Some frames =>
          videoPlayer w =
            Some (Player.mkVideoPlayer "gone.mp4"
                    (Some (Player.mkVideoCapture frames 0 true))
                    false false (currentFps self) false)
          /\ last tail = Some (LogLoaded "gone.mp4")
        end)
  /\ teardown (videoPlayer self)
     = [FromPlayer Player.TimerStop; FromPlayer Player.CapRelease].
Proof.
  split; [|reflexivity].
  apply (load_tears_down_first no_file
           (mkWindow (Some (PlayerMore.playing_at "a.mp4" 30 [] 0))
              true false 30) "gone.mp4").
  discriminate.
Defined.

End WindowPlayback.


(** ** main_window.py: detection during playback *)

Module PlaybackDetect.

Import Detection.

Inductive LogLine :=
| LogStringFrame
| LogInvalidFrame
| LogDetectException (e : PyExn).

Section Adapter.

Variables Model Results : Type.
Variable cv2_resize : ndarray -> nat * nat -> Res ndarray.
Variable call_model :
  Model -> ndarray -> Q -> PyObj -> Model * Res (list Results).
Variable plot : Results -> Res ndarray.

Local Abbreviation detect :=
  (detect_and_plot Model Results cv2_resize call_model plot).

(** What [update_playback_frame] did: the detector afterwards, the frame
    handed on to [update_frame] (none when it returned early), the calls
    of the detector and the log lines. *)
Record Shown := mkShown {
  detector_after : option (YoloDetector Model);
  to_update_frame : option PyVal;
  detector_calls : list (Event Results);
  log_lines : list LogLine
}.

Definition frame_value (v : option ndarray) : PyVal :=
  match v with
  | Some a => Arr a
  | None => Obj PyNone
  end.

(** [update_playback_frame], with the window's [useDetector], [detector],
    [confThreshold] and [detectionClasses]. *)
Definition update_playback_frame (useDetector : bool)
    (detector : option (YoloDetector Model)) (confThreshold : Q)
    (detectionClasses : list string) (frame : PyVal) : Shown :=
  match useDetector, detector with
  | true, Some d =>
    match frame with
    | Obj o =>
      mkShown detector None []
        ((if isinstance_str o then [LogStringFrame] else [])
         ++ [LogInvalidFrame])
    | Arr a =>
      match detect d frame confThreshold (PyList (map PyStr detectionClasses))
      with
      | (d, Ok v, ev) => mkShown (Some d) (Some (frame_value v)) ev []
      | (d, Raise e, ev) =>
        mkShown (Some d) (Some frame) ev [LogDetectException e]
      end
    end
  | _, _ => mkShown detector (Some frame) [] []
  end.

Lemma label_classes_checked (labels : list string) :
  check_classes (PyList (map PyStr labels)) =
    Ok (match labels with
        | [] => PyList []
        | _ :: _ => PyNone
        end).
Proof. destruct labels; reflexivity. Qed.

(** X17. During playback the class labels typed in the settings never
    filter anything: they are strings, so the format check of
    [detect_and_plot] replaces any non-empty list of them by [None]; only
    the empty list reaches the model as it is.  The threshold does reach
    the model. *)
Theorem playback_labels_never_filter useDetector detector conf
    (labels : list string) frame :
  forall img c cls out,
    In (Infer img c cls out)
       (detector_calls
          (update_playback_frame useDetector detector conf labels frame)) ->
    c = conf
    /\ cls = match labels with
             | [] => PyList []
             | _ :: _ => PyNone
             end.
Proof.
  intros img c cls out. unfold update_playback_frame.
  destruct useDetector; [|intros []].
  destruct detector as [d|]; [|intros []].
  destruct frame as [o|a]; [intros []|].
  pose proof (DetectionMore.infer_event_args Model Results cv2_resize
                call_model plot d a conf (PyList (map PyStr labels))
                img c cls out) as Hargs.
  rewrite label_classes_checked in Hargs.
  destruct (detect d (Arr a) conf (PyList (map PyStr labels)))
    as [[d' [v|e]] ev]; cbn [detector_calls snd] in *; intros Hin;
    destruct (Hargs Hin) as (_ & Hc & Hcls); split; congruence.
Qed.

(** X18. With detection switched on, a frame that is not an array is
    logged and dropped: nothing is handed to [update_frame] and the
    detector is not called; an array is always handed on, as the detector
    returned it or, when the detector raised, as it came in. *)
Theorem playback_frame_shown (d : YoloDetector Model) conf labels frame :
  let s := update_playback_frame true (Some d) conf labels frame in
  match frame with
  | Obj _ => to_update_frame s = None /\ detector_calls s = []
             /\ detector_after s = Some d
  | Arr a =>
    exists shown, to_update_frame s = Some (Arr shown)
      /\ ((detect d frame conf (PyList (map PyStr labels))).1.2
          = Ok (Some shown)
          \/ (shown = a
              /\ exists e, (detect d frame conf (PyList (map PyStr labels))).1.2
                           = Raise e))
  end.
Proof.
  destruct frame as [o|a]; simpl; [auto|].
  unfold detect_and_plot, run_inference.
  repeat match goal with
  | |- context [match ?x with _ => _ end] =>
    lazymatch x with
    | context [match _ with _ => _ end] => fail
    | _ => destruct x eqn:?
    end
  end; simpl; eauto 6.
Qed.

End Adapter.

Lemma playback_labels_never_filter_witness :
  (1 # 2) = (1 # 2)
  /\ PyNone = match ["person"; "car"] with
              | [] => PyList []
              | _ :: _ => PyNone
              end.
Proof.
  apply (playback_labels_never_filter nat ndarray stub_resize stub_model
           stub_plot true (Some (init nat 0%nat 2)) (1 # 2) ["person"; "car"]
           (Arr (full_hd 1)) (Ndarray 480 640 [1]) (1 # 2) PyNone
           (Ok [Ndarray 480 640 [1]])).
  right. left. reflexivity.
Defined.

End PlaybackDetect.


(** ** main_window.py: more on the segmented recording *)

Module RecorderMore.

Import Recorder.

Local Open Scope nat_scope.

(** Every write of [calls] goes to a writer that is open at that moment. *)
Fixpoint writes_ok (active : gset nat) (calls : list WriterCall) : Prop :=
  match calls with
  | [] => True
  | c :: calls =>
    match c with
    | WWrite h _ _ => h ∈ active
    | _ => True
    end ∧ writes_ok (replay active c) calls
  end.

(** Paths of the writers constructed by [calls], in order. *)
Fixpoint opened_paths (calls : list WriterCall) : list string :=
  match calls with
  | [] => []
  | WOpen _ path :: calls => path :: opened_paths calls
  | _ :: calls => opened_paths calls
  end.

(** The same call with the outcome of the write forgotten. *)
Definition erase (c : WriterCall) : WriterCall :=
  match c with
  | WWrite h frame _ => WWrite h frame false
  | _ => c
  end.

Section Window.

Variable splitext : string -> string * string.

Local Abbreviation run_window := (run splitext).
Local Abbreviation handle_event := (handle splitext).
Local Abbreviation new_file := (start_new_save_file splitext).

(** No constructor raises and the window is not being closed. *)
Definition calm (e : UiEvent) : bool :=
  match e with
  | StartRecording during _ _ ctor_raises =>
    negb ctor_raises && forallb (fun d => negb (shown_ctor_raises d)) during
  | FrameCaptured _ _ ctor_raises _ => negb ctor_raises
  | CloseEvent => false
  | _ => true
  end.

(** A frame arriving while no constructor raises. *)
Definition plain_frame (e : UiEvent) : bool :=
  match e with
  | FrameCaptured _ _ ctor_raises _ => negb ctor_raises
  | _ => false
  end.

(** A save dialog during which frames arrived is not cancelled. *)
Definition settled (e : UiEvent) : bool :=
  match e with
  | StartRecording (_ :: _) dialog _ _ => negb (String.eqb dialog "")
  | _ => true
  end.

Definition silence_delivery (d : Delivery) : Delivery :=
  mkDelivery (shown_frame d) (shown_at d) (shown_ctor_raises d) false.

(** The same event with every write succeeding. *)
Definition silence (e : UiEvent) : UiEvent :=
  match e with
  | StartRecording during dialog now ctor_raises =>
    StartRecording (map silence_delivery during) dialog now ctor_raises
  | FrameCaptured frame now ctor_raises _ =>
    FrameCaptured frame now ctor_raises false
  | _ => e
  end.

(** [f"{base_name}_part{k}{ext}"]. *)
Definition segment_name (base : string) (k : nat) : string :=
  (splitext base).1 +:+ "_part" +:+ pretty k +:+ (splitext base).2.

Lemma new_file_recording ctor (self : MainWindow) :
  isRecording (new_file ctor self).1 = isRecording self
  /\ baseFilePath (new_file ctor self).1 = baseFilePath self.
Proof.
  unfold start_new_save_file.
  destruct (baseFilePath self) as [base|] eqn:Hb; [|auto].
  destruct (splitext base), ctor; simpl; auto.
Qed.

(** *** No writer stays open when the window is not recording *)

Lemma idle_handle (self : MainWindow) e (active : gset nat) :
  settled e = true ->
  active ⊆ holder (recordOut self) ->
  (isRecording self = false -> active = ∅) ->
  isRecording (handle_event self e).1 = false ->
  fold_left replay (handle_event self e).2 active = ∅.
Proof.
  intros Hset Hsub Hidle.
  assert (Hsame : forall w : MainWindow,
            isRecording w = isRecording self ->
            isRecording (w, @nil WriterCall).1 = false ->
            fold_left replay (w, @nil WriterCall).2 active = ∅).
  { simpl. intros w Hw Hf. apply Hidle. congruence. }
  destruct e as [| |during dialog now ctor|frame now ctor wr| |minutes|];
    simpl; try (apply Hsame; reflexivity).
  - unfold start_recording.
    destruct (negb (captureThread self)); [apply Hsame; reflexivity|].
    destruct (isRecording self) eqn:Hr; [apply Hsame; assumption|].
    destruct during as [|d during].
    + simpl.
      destruct (String.eqb dialog ""); [simpl; auto|].
      match goal with
      | |- context [start_new_save_file splitext ?b ?w] =>
        pose proof (new_file_recording b w) as [Hn _];
        destruct (start_new_save_file splitext b w) as [w' cs]
      end. simpl in *. congruence.
    + simpl in Hset.
      match goal with
      | |- context [deliver ?l ?w] => destruct (deliver l w) as [shown calls0]
      end.
      destruct (String.eqb dialog ""); [discriminate|].
      match goal with
      | |- context [start_new_save_file splitext ?b ?w] =>
        pose proof (new_file_recording b w) as [Hn _];
        destruct (start_new_save_file splitext b w) as [w' cs]
      end. simpl in *. congruence.
  - unfold update_frame.
    destruct (isRecording self) eqn:Hr; [|apply Hsame; assumption].
    destruct frame as [frame|]; [|simpl; congruence].
    destruct (Qle_bool _ _).
    + pose proof (new_file_recording ctor self) as [Hn _].
      destruct (new_file ctor self) as [w' cs]. simpl in *.
      destruct (recordOut w'); simpl; congruence.
    + destruct (recordOut self); simpl; congruence.
  - unfold stop_recording.
    destruct (isRecording self) eqn:Hr; [|apply Hsame; assumption].
    intros _. unfold holder in Hsub.
    destruct (recordOut self) as [h|]; simpl; set_solver.
  - intros _. unfold closeEvent. simpl. unfold holder in Hsub.
    destruct (recordOut self) as [h|]; simpl; set_solver.
Qed.

Lemma idle_run es : forall (self : MainWindow) (active : gset nat),
  Forall (fun e => settled e = true) es ->
  active ⊆ holder (recordOut self) ->
  (isRecording self = false -> active = ∅) ->
  isRecording (run_window self es).1 = false ->
  fold_left replay (run_window self es).2 active = ∅.
Proof.
  induction es as [|e es IH]; intros self active Hall Hsub Hidle; simpl.
  - exact Hidle.
  - inversion Hall as [|? ? He Hes]; subst.
    pose proof (handle_owns splitext self e active Hsub) as [_ Hsub1].
    pose proof (idle_handle self e active He Hsub Hidle) as Hidle1.
    destruct (handle_event self e) as [self1 calls1]. simpl in *.
    specialize (IH self1 _ Hes Hsub1 Hidle1).
    destruct (run_window self1 es) as [self2 calls2]. simpl in *.
    rewrite fold_left_app. exact IH.
Qed.

(** X19. As long as no save dialog during which frames arrived is
    cancelled: whenever the window is not recording, no writer is open;
    every writer constructed during a run has been released by the time
    [isRecording] is false again. *)
Theorem idle_window_holds_no_writer (now : Q) (es : list UiEvent) :
  Forall (fun e => settled e = true) es ->
  isRecording (run_window (init now) es).1 = false ->
  active_after (run_window (init now) es).2 = ∅.
Proof.
  intros Hall. apply idle_run; simpl; [exact Hall|set_solver|reflexivity].
Qed.

(** *** Writes go to the open writer *)

Lemma writes_ok_app active cs1 cs2 :
  writes_ok active cs1 ->
  writes_ok (fold_left replay cs1 active) cs2 ->
  writes_ok active (cs1 ++ cs2).
Proof.
  revert active. induction cs1 as [|c cs1 IH]; intros active H1 H2; simpl in *.
  - exact H2.
  - destruct H1 as [H0 H1]. split; [exact H0|]. apply IH; assumption.
Qed.

Lemma writes_ok_prefix cs : forall active p h frame raised,
  writes_ok active cs ->
  p ++ [WWrite h frame raised] `prefix_of` cs ->
  h ∈ fold_left replay p active.
Proof.
  induction cs as [|c cs IH]; intros active p h frame raised H Hp.
  - apply prefix_nil_inv in Hp. destruct p; discriminate.
  - destruct H as [H0 H]. destruct p as [|c' p]; simpl in *.
    + pose proof (prefix_cons_inv_1 _ _ _ _ Hp) as <-. exact H0.
    + pose proof (prefix_cons_inv_1 _ _ _ _ Hp) as ->.
      apply prefix_cons_inv_2 in Hp. eapply IH; eassumption.
Qed.

Lemma calm_new_file (self : MainWindow) (active : gset nat) :
  active = holder (recordOut self) ->
  writes_ok active (new_file false self).2
  /\ fold_left replay (new_file false self).2 active
     = holder (recordOut (new_file false self).1).
Proof.
  intros ->. unfold start_new_save_file.
  destruct (baseFilePath self) as [base|]; [|simpl; auto].
  destruct (splitext base) as [base_name ext].
  destruct (recordOut self) as [h|]; simpl; (split; [auto|]); set_solver.
Qed.

Lemma calm_update_frame frame now wr (self : MainWindow) (active : gset nat) :
  active = holder (recordOut self) ->
  writes_ok active (update_frame splitext frame now false wr self).2
  /\ fold_left replay (update_frame splitext frame now false wr self).2 active
     = holder (recordOut (update_frame splitext frame now false wr self).1).
Proof.
  intros Hact. unfold update_frame.
  destruct (isRecording self); [|simpl; auto].
  destruct frame as [frame|]; [|simpl; auto].
  destruct (Qle_bool _ _).
  - pose proof (calm_new_file self active Hact) as [Hw Ha].
    destruct (new_file false self) as [w' cs]. simpl in *.
    destruct (recordOut w') as [h|] eqn:Hout; simpl; rewrite ?Hout;
      [|auto].
    split.
    + apply writes_ok_app; [assumption|]. simpl. rewrite Ha.
      split; [set_solver|exact I].
    + rewrite fold_left_app. simpl. exact Ha.
  - destruct (recordOut self) as [h|] eqn:Hout; simpl; rewrite ?Hout;
      [|auto].
    subst active. split; [split; [set_solver|exact I]|reflexivity].
Qed.

Lemma calm_deliver frames : forall (self : MainWindow) (active : gset nat),
  forallb (fun d => negb (shown_ctor_raises d)) frames = true ->
  active = holder (recordOut self) ->
  writes_ok active (deliver splitext frames self).2
  /\ fold_left replay (deliver splitext frames self).2 active
     = holder (recordOut (deliver splitext frames self).1).
Proof.
  induction frames as [|d frames IH]; intros self active Hall Hact; simpl;
    [auto|].
  simpl in Hall. apply andb_true_iff in Hall. destruct Hall as [Hd Hall].
  apply negb_true_iff in Hd. rewrite Hd.
  destruct (calm_update_frame (shown_frame d) (shown_at d)
              (shown_write_raises d) self active Hact) as [Hw Ha].
  destruct (update_frame splitext _ _ _ _ self) as [self1 calls1].
  simpl in *.
  destruct (IH self1 _ Hall (eq_sym (eq_sym Ha))) as [Hw2 Ha2].
  destruct (deliver splitext frames self1) as [self2 calls2]. simpl in *.
  split; [apply writes_ok_app; assumption|].
  rewrite fold_left_app. exact Ha2.
Qed.

Lemma calm_handle (self : MainWindow) e (active : gset nat) :
  calm e = true ->
  active = holder (recordOut self) ->
  writes_ok active (handle_event self e).2
  /\ fold_left replay (handle_event self e).2 active
     = holder (recordOut (handle_event self e).1).
Proof.
  intros Hcalm Hact.
  destruct e as [| |during dialog now ctor|frame now ctor wr| |minutes|];
    simpl in *; try discriminate; try (split; [exact I|exact Hact]).
  - apply andb_true_iff in Hcalm. destruct Hcalm as [Hctor Hduring].
    apply negb_true_iff in Hctor. subst ctor. unfold start_recording.
    destruct (negb (captureThread self)); [simpl; auto|].
    destruct (isRecording self); [simpl; auto|].
    match goal with
    | |- context [deliver splitext during ?w] =>
      pose proof (calm_deliver during w active Hduring Hact) as [Hw Ha];
      destruct (deliver splitext during w) as [shown calls0]
    end. simpl in Hw, Ha.
    destruct (String.eqb dialog ""); [simpl; auto|].
    match goal with
    | |- context [start_new_save_file splitext false ?w] =>
      pose proof (calm_new_file w _ (eq_sym (eq_sym Ha))) as [Hn1 Hn2];
      destruct (start_new_save_file splitext false w) as [w' cs]
    end. simpl in *.
    split; [apply writes_ok_app; assumption|].
    rewrite fold_left_app. exact Hn2.
  - apply negb_true_iff in Hcalm. subst ctor.
    apply calm_update_frame. exact Hact.
  - unfold stop_recording. destruct (isRecording self); [|simpl; auto].
    subst active.
    destruct (recordOut self) as [h|]; simpl; (split; [auto|]); set_solver.
Qed.

Lemma calm_run es : forall (self : MainWindow) (active : gset nat),
  Forall (fun e => calm e = true) es ->
  active = holder (recordOut self) ->
  writes_ok active (run_window self es).2.
Proof.
  induction es as [|e es IH]; intros self active Hall Hact; simpl;
    [exact I|].
  inversion Hall as [|? ? He Hes]; subst.
  destruct (calm_handle self e _ He eq_refl) as [Hw Ha].
  destruct (handle_event self e) as [self1 calls1]. simpl in *.
  specialize (IH self1 _ Hes (eq_sym (eq_sym Ha))).
  destruct (run_window self1 es) as [self2 calls2]. simpl in *.
  apply writes_ok_app; assumption.
Qed.

(** X20. As long as no [cv2.VideoWriter] constructor raises and the window
    is not closed, every frame is written to a writer that is open at
    that moment: nothing is written to a released segment. *)
Theorem frames_go_to_open_writer (now : Q) (es : list UiEvent)
    p h frame raised :
  Forall (fun e => calm e = true) es ->
  p ++ [WWrite h frame raised] `prefix_of` (run_window (init now) es).2 ->
  h ∈ active_after p.
Proof.
  intros Hall Hp. unfold active_after.
  eapply writes_ok_prefix; [|exact Hp].
  apply calm_run; [assumption|reflexivity].
Qed.

(** *** Segment names *)

Lemma opened_paths_app a : forall b,
  opened_paths (a ++ b) = opened_paths a ++ opened_paths b.
Proof. induction a as [|[]]; intros b; simpl; rewrite ?IHa; auto. Qed.

Lemma frames_paths es : forall (self : MainWindow) base,
  baseFilePath self = Some base ->
  Forall (fun e => plain_frame e = true) es ->
  let n := length (opened_paths (run_window self es).2) in
  opened_paths (run_window self es).2 =
    map (segment_name base) (seq (recordSegmentCounter self) n)
  /\ baseFilePath (run_window self es).1 = Some base
  /\ recordSegmentCounter (run_window self es).1
     = recordSegmentCounter self + n.
Proof.
  induction es as [|e es IH]; intros self base Hb Hall; simpl.
  - repeat split; auto.
  - inversion Hall as [|? ? He Hes]; subst.
    destruct e as [| |? ? ? ?|frame now ctor wr| | |]; try discriminate.
    simpl in He. apply negb_true_iff in He. subst ctor.
    assert (Hstep : exists self1 calls1,
              handle_event self (FrameCaptured frame now false wr)
                = (self1, calls1)
              /\ baseFilePath self1 = Some base
              /\ ((opened_paths calls1 = []
                   /\ recordSegmentCounter self1 = recordSegmentCounter self)
                  \/ (opened_paths calls1
                        = [segment_name base (recordSegmentCounter self)]
                      /\ recordSegmentCounter self1
                         = S (recordSegmentCounter self)))).
    { simpl. unfold update_frame.
      destruct (isRecording self); [|eauto 8].
      destruct frame as [frame|]; [|eauto 8].
      destruct (Qle_bool _ _).
      - unfold start_new_save_file, segment_name. rewrite Hb.
        destruct (splitext base) as [base_name ext]. simpl.
        do 2 eexists. split; [reflexivity|]. simpl. split; [reflexivity|].
        right. destruct (recordOut self); simpl; auto.
      - destruct (recordOut self); do 2 eexists;
          (split; [reflexivity|]); simpl; auto. }
    destruct Hstep as (self1 & calls1 & Hrun & Hb1 & Hcase).
    rewrite Hrun. specialize (IH self1 base Hb1 Hes).
    destruct (run_window self1 es) as [self2 calls2]. simpl in *.
    rewrite opened_paths_app. destruct IH as (IH1 & IH2 & IH3).
    destruct Hcase as [[Hp Hc]|[Hp Hc]]; rewrite Hp; rewrite Hc in *; simpl.
    + repeat split; auto.
    + rewrite <- IH1. repeat split; auto. lia.
Qed.

(** While [baseFilePath] is [None] no frame opens a segment or moves the
    segment counter. *)
Lemma deliver_without_path frames : forall self : MainWindow,
  baseFilePath self = None ->
  opened_paths (deliver splitext frames self).2 = []
  /\ recordSegmentCounter (deliver splitext frames self).1
     = recordSegmentCounter self.
Proof.
  induction frames as [|d frames IH]; intros self Hb; simpl; [auto|].
  assert (Hstep : exists self1 calls1,
            update_frame splitext (shown_frame d) (shown_at d)
              (shown_ctor_raises d) (shown_write_raises d) self
              = (self1, calls1)
            /\ baseFilePath self1 = None
            /\ opened_paths calls1 = []
            /\ recordSegmentCounter self1 = recordSegmentCounter self).
  { unfold update_frame, start_new_save_file. rewrite Hb.
    destruct (isRecording self); [|eauto 8].
    destruct (shown_frame d) as [frame|]; [|eauto 8].
    destruct (Qle_bool _ _); simpl;
      destruct (recordOut self); do 2 eexists;
      (split; [reflexivity|]); simpl; auto. }
  destruct Hstep as (self1 & calls1 & -> & Hb1 & Hp & Hc).
  destruct (IH self1 Hb1) as [IH1 IH2].
  destruct (deliver splitext frames self1) as [self2 calls2]. simpl in *.
  rewrite opened_paths_app, Hp, IH1. split; [reflexivity|congruence].
Qed.

(** X21. The segments of a recording run are named after the path chosen
    in the dialog, [base_part0.ext], [base_part1.ext], ... in the order
    they are opened, with no gap and no repetition, as long as no
    constructor raises; there is at least one.  This holds when the
    window carries no path of an earlier, cancelled dialog, or when no
    frame arrives while the dialog is open. *)
Theorem segments_numbered_from_zero (self : MainWindow) during base now
    (frames : list UiEvent) :
  captureThread self = true -> isRecording self = false -> base <> "" ->
  baseFilePath self = None \/ during = [] ->
  Forall (fun e => plain_frame e = true) frames ->
  let paths :=
    opened_paths
      (run_window self (StartRecording during base now false :: frames)).2
  in
  paths = map (segment_name base) (seq 0 (length paths))
  /\ 1 <= length paths.
Proof.
  intros Hcam Hrec Hne Hpre Hall. simpl.
  unfold start_recording. rewrite Hcam, Hrec. simpl.
  match goal with
  | |- context [deliver splitext during ?w] =>
    assert (Hd : opened_paths (deliver splitext during w).2 = []
                 /\ recordSegmentCounter (deliver splitext during w).1 = 0)
      by (destruct Hpre as [Hnone| ->];
          [apply (deliver_without_path during w Hnone)|simpl; auto]);
    destruct (deliver splitext during w) as [shown calls0]
  end.
  simpl in Hd. destruct Hd as [Hp0 Hc0].
  destruct (String.eqb_spec base "") as [->|_]; [contradiction|].
  unfold start_new_save_file. simpl. rewrite Hc0.
  pose proof (eq_refl : segment_name base 0 = segment_name base 0) as Hname.
  unfold segment_name at 1 in Hname.
  destruct (splitext base) as [base_name ext]. simpl in Hname.
  match goal with
  | |- context [run_window ?w frames] =>
    destruct (frames_paths frames w base eq_refl Hall) as (Hf & _ & _);
    destruct (run_window w frames) as [w2 calls2]
  end.
  simpl in *. rewrite !opened_paths_app, Hp0.
  assert (Hrel : forall o, opened_paths (safe_release o) = [])
    by (intros [h|]; reflexivity).
  rewrite Hrel. simpl. rewrite Hname, <- Hf. split; [reflexivity|lia].
Qed.

(** *** Write failures *)

Lemma silence_update_frame frame now ctor wr (self : MainWindow) :
  (update_frame splitext frame now ctor false self).1
    = (update_frame splitext frame now ctor wr self).1
  /\ map erase (update_frame splitext frame now ctor false self).2
     = map erase (update_frame splitext frame now ctor wr self).2.
Proof.
  unfold update_frame.
  destruct (isRecording self); [|auto].
  destruct frame as [frame|]; [|auto].
  destruct (Qle_bool _ _).
  - destruct (new_file ctor self) as [w' cs]. simpl.
    destruct (recordOut w'); simpl; rewrite ?map_app; auto.
  - destruct (recordOut self); simpl; auto.
Qed.

Lemma silence_deliver frames : forall self : MainWindow,
  (deliver splitext (map silence_delivery frames) self).1
    = (deliver splitext frames self).1
  /\ map erase (deliver splitext (map silence_delivery frames) self).2
     = map erase (deliver splitext frames self).2.
Proof.
  induction frames as [|d frames IH]; intros self; simpl; [auto|].
  destruct (silence_update_frame (shown_frame d) (shown_at d)
              (shown_ctor_raises d) (shown_write_raises d) self) as [Hs Hc].
  destruct (update_frame splitext _ _ _ false self) as [s1 c1].
  destruct (update_frame splitext _ _ _ (shown_write_raises d) self)
    as [s1' c1'].
  simpl in *. subst s1'.
  destruct (IH s1) as [IHs IHc].
  destruct (deliver splitext (map silence_delivery frames) s1) as [s2 c2].
  destruct (deliver splitext frames s1) as [s2' c2']. simpl in *.
  rewrite !map_app. split; congruence.
Qed.

Lemma silence_handle (self : MainWindow) e :
  (handle_event self (silence e)).1 = (handle_event self e).1
  /\ map erase (handle_event self (silence e)).2
     = map erase (handle_event self e).2.
Proof.
  destruct e as [| |during dialog now ctor|frame now ctor wr| | |]; simpl;
    auto.
  - unfold start_recording.
    destruct (negb (captureThread self)); [auto|].
    destruct (isRecording self); [auto|].
    match goal with
    | |- context [deliver splitext during ?w] =>
      destruct (silence_deliver during w) as [Hs Hc];
      destruct (deliver splitext (map silence_delivery during) w) as [s1 c1];
      destruct (deliver splitext during w) as [s1' c1']
    end.
    simpl in *. subst s1'.
    destruct (String.eqb dialog ""); [simpl; auto|].
    destruct (new_file ctor _) as [w' cs]. simpl.
    rewrite !map_app. split; congruence.
  - apply silence_update_frame.
Qed.

(** X22. A write that raises changes nothing but its own log line: the
    window ends in the same state, and opens, releases and writes the
    same segments in the same order, as if every write had succeeded. *)
Theorem write_failures_change_nothing (es : list UiEvent) :
  forall self : MainWindow,
    (run_window self (map silence es)).1 = (run_window self es).1
    /\ map erase (run_window self (map silence es)).2
       = map erase (run_window self es).2.
Proof.
  induction es as [|e es IH]; intros self; simpl; [auto|].
  destruct (silence_handle self e) as [Hs Hc].
  destruct (handle_event self (silence e)) as [s1 c1].
  destruct (handle_event self e) as [s1' c1']. simpl in *. subst s1'.
  destruct (IH s1) as [IHs IHc].
  destruct (run_window s1 (map silence es)) as [s2 c2].
  destruct (run_window s1 es) as [s2' c2']. simpl in *.
  rewrite !map_app. split; congruence.
Qed.

End Window.

Definition sample_events : list UiEvent :=
  [StartCamera;
   StartRecording [] "videos/record.mp4" 0 false;
   FrameCaptured (Some (Ndarray 480 640 [7%Z])) (10 # 1) false true;
   FrameCaptured (Some (Ndarray 480 640 [8%Z])) (61 # 1) false false;
   StopRecording].

(** A frame that arrives, past the rollover interval, while the save
    dialog is open. *)
Definition late_frame : Delivery :=
  mkDelivery (Some (Ndarray 480 640 [9%Z])) (70 # 1) false false.

(** The first dialog is cancelled, which leaves the empty path behind.
    The frame that arrives during the second dialog opens a segment named
    after it; cancelling again leaves that writer open while
    [isRecording] is [False]. *)
Example cancelled_dialog_leaves_writer_open :
  let '(w, calls) :=
    run stub_splitext (init 0)
      [StartCamera; StartRecording [] "" 0 false;
       StartRecording [late_frame] "" (80 # 1) false] in
  isRecording w = false
  /\ calls = [WOpen 0 "_part0"; WWrite 0 (Ndarray 480 640 [9%Z]) false]
  /\ elements (active_after calls) = [0].
Proof. repeat split. Qed.

(** The same with a path chosen in the second dialog: the segment of the
    stale path is released and the chosen path starts at part 1. *)
Example dialog_frame_shifts_numbering :
  (run stub_splitext (init 0)
     [StartCamera; StartRecording [] "" 0 false;
      StartRecording [late_frame] "videos/record.mp4" (80 # 1) false]).2
  = [WOpen 0 "_part0"; WWrite 0 (Ndarray 480 640 [9%Z]) false;
     WRelease 0; WOpen 1 "videos/record_part1.mp4"].
Proof. reflexivity. Qed.

Lemma idle_window_holds_no_writer_witness :
  active_after (run stub_splitext (init 0) sample_events).2 = ∅.
Proof.
  apply (idle_window_holds_no_writer stub_splitext 0 sample_events).
  - repeat constructor.
  - reflexivity.
Defined.

Lemma frames_go_to_open_writer_witness :
  1 ∈ active_after
        [WOpen 0 "videos/record_part0.mp4";
         WWrite 0 (Ndarray 480 640 [7%Z]) true;
         WRelease 0;
         WOpen 1 "videos/record_part1.mp4"].
Proof.
  apply (frames_go_to_open_writer stub_splitext 0 sample_events _ 1
           (Ndarray 480 640 [8%Z]) false).
  - repeat constructor.
  - exists [WRelease 1]. reflexivity.
Defined.

Lemma segments_numbered_from_zero_witness :
  let paths :=
    opened_paths
      (run stub_splitext (set_captureThread (init 0) true)
         (StartRecording [late_frame] "videos/record.mp4" (80 # 1) false
          :: [FrameCaptured (Some (Ndarray 480 640 [8%Z])) (141 # 1)
                false false])).2 in
  paths = map (segment_name stub_splitext "videos/record.mp4")
              (seq 0 (length paths))
  /\ 1 <= length paths.
Proof.
  apply (segments_numbered_from_zero stub_splitext
           (set_captureThread (init 0) true) [late_frame]
           "videos/record.mp4" (80 # 1)
           [FrameCaptured (Some (Ndarray 480 640 [8%Z])) (141 # 1)
              false false]).
  - reflexivity.
  - reflexivity.
  - discriminate.
  - left. reflexivity.
  - repeat constructor.
Defined.

End RecorderMore.


(** ** utils.py: camera discovery and the constant tables *)

Module Utils.

Definition SUPPORTED_RESOLUTIONS : gmap string (Z * Z) :=
  <["480P" := (640, 480)]>
    (<["720P" := (1280, 720)]> (<["1080P" := (1920, 1080)]> ∅)).

Definition SUPPORTED_FPS : list Z := [15; 30; 60].

(** [on_resolution_change] of the main window:
    [SUPPORTED_RESOLUTIONS.get(res_name, (640, 480))]. *)
Definition on_resolution_change (res_name : string) : Z * Z :=
  default (640, 480) (SUPPORTED_RESOLUTIONS !! res_name).

(** What [detect_cameras] does to the outside. *)
Inductive ProbeCall :=
| Constructed (i : Z) (opened : bool)
| ConstructFailed (i : Z)
| Released (i : Z)
| HttpGet (url : string).

(** [range(n)]. *)
Definition py_range (n : Z) : list Z :=
  map Z.of_nat (seq 0 (Z.to_nat n)).

Definition local_name (i : Z) : string := "Local Camera " +:+ pretty i.
Definition mobile_name (url : string) : string := "Mobile Camera " +:+ url.

Section Probe.

(** [cv2.VideoCapture(i)]: raises, or [isOpened()]. *)
Variable video_capture : Z -> Res bool.
(** [requests.get(url, stream=True, timeout=2)]: raises, or the status. *)
Variable requests_get : string -> Res Z.

(** The first loop. *)
Fixpoint probe_local (indices : list Z) (camera_dict : gmap Z string)
    : gmap Z string * list ProbeCall :=
  match indices with
  | [] => (camera_dict, [])
  | i :: rest =>
    let '(camera_dict, calls) :=
      match video_capture i with
      | Ok true =>
        (<[i := local_name i]> camera_dict, [Constructed i true; Released i])
      | Ok false => (camera_dict, [Constructed i false; Released i])
      | Raise _ => (camera_dict, [ConstructFailed i])
      end in
    let '(camera_dict, more) := probe_local rest camera_dict in
    (camera_dict, calls ++ more)
  end.

(** The second loop, [enumerate(urls, start=idx)]. *)
Fixpoint probe_mobile (idx : Z) (urls : list string)
    (camera_dict : gmap Z string) : gmap Z string * list ProbeCall :=
  match urls with
  | [] => (camera_dict, [])
  | url :: rest =>
    let camera_dict :=
      match requests_get url with
      | Ok status_code =>
        if status_code =? 200
        then <[idx := mobile_name url]> camera_dict
        else camera_dict
      | Raise _ => camera_dict
      end in
    let '(camera_dict, more) := probe_mobile (idx + 1) rest camera_dict in
    (camera_dict, HttpGet url :: more)
  end.

Definition detect_cameras (max_test : Z)
    (mobile_camera_urls : option (list string))
    : gmap Z string * list ProbeCall :=
  let '(camera_dict, calls) := probe_local (py_range max_test) ∅ in
  match mobile_camera_urls with
  | None | Some [] => (camera_dict, calls)
  | Some urls =>
    let '(camera_dict, more) := probe_mobile max_test urls camera_dict in
    (camera_dict, calls ++ more)
  end.

Definition opens (i : Z) : bool :=
  match video_capture i with
  | Ok true => true
  | _ => false
  end.

Definition answers_200 (url : string) : bool :=
  match requests_get url with
  | Ok status_code => status_code =? 200
  | Raise _ => false
  end.

(** Captures held after a sequence of calls. *)
Definition hold (held : gset Z) (c : ProbeCall) : gset Z :=
  match c with
  | Constructed i _ => {[i]} ∪ held
  | Released i => held ∖ {[i]}
  | ConstructFailed _ | HttpGet _ => held
  end.

Lemma probe_local_dict i rest d :
  (probe_local (i :: rest) d).1 =
    (probe_local rest (if opens i then <[i := local_name i]> d else d)).1.
Proof.
  simpl. unfold opens.
  destruct (video_capture i) as [[|]|e];
    match goal with
    | |- context [probe_local rest ?d'] =>
      destruct (probe_local rest d') as [d2 more]
    end; reflexivity.
Qed.

Lemma probe_local_lookup indices : forall d k,
  (probe_local indices d).1 !! k =
    if decide (k ∈ indices) then
      (if opens k then Some (local_name k) else d !! k)
    else d !! k.
Proof.
  induction indices as [|i rest IH]; intros d k.
  - destruct (decide (k ∈ [])) as [Hin|_]; [|reflexivity].
    apply not_elem_of_nil in Hin. contradiction.
  - rewrite probe_local_dict, IH.
    assert (Hd : k <> i ->
                 (if opens i then <[i := local_name i]> d else d) !! k
                 = d !! k).
    { intros Hne. destruct (opens i);
        [apply lookup_insert_ne; congruence|reflexivity]. }
    destruct (decide (k ∈ rest)) as [Hin|Hout];
      destruct (decide (k ∈ i :: rest)) as [Hin'|Hout'];
      try (exfalso; set_solver).
    + destruct (opens k) eqn:Hk; [reflexivity|].
      destruct (decide (k = i)) as [->|Hne]; [rewrite Hk; reflexivity|auto].
    + assert (k = i) as -> by set_solver. clear Hd.
      destruct (opens i) eqn:Ho; [apply lookup_insert_eq|reflexivity].
    + apply Hd. set_solver.
Qed.

Lemma probe_mobile_dict idx url rest d :
  (probe_mobile idx (url :: rest) d).1 =
    (probe_mobile (idx + 1) rest
       (if answers_200 url then <[idx := mobile_name url]> d else d)).1.
Proof.
  simpl. unfold answers_200.
  destruct (requests_get url) as [code|e]; [destruct (code =? 200)|];
    match goal with
    | |- context [probe_mobile (idx + 1) rest ?d'] =>
      destruct (probe_mobile (idx + 1) rest d') as [d2 more]
    end; reflexivity.
Qed.

Lemma probe_mobile_lookup urls : forall idx d k,
  (probe_mobile idx urls d).1 !! k =
    if decide (idx <= k) then
      match urls !! Z.to_nat (k - idx) with
      | Some url => if answers_200 url then Some (mobile_name url) else d !! k
      | None => d !! k
      end
    else d !! k.
Proof.
  induction urls as [|url rest IH]; intros idx d k.
  - destruct (decide (idx <= k)); reflexivity.
  - rewrite probe_mobile_dict, IH.
    assert (Hd : k <> idx ->
                 (if answers_200 url
                  then <[idx := mobile_name url]> d else d) !! k = d !! k).
    { intros Hne. destruct (answers_200 url);
        [apply lookup_insert_ne; congruence|reflexivity]. }
    destruct (decide (idx + 1 <= k)) as [Hle1|Hgt1];
      destruct (decide (idx <= k)) as [Hle|Hgt]; try lia.
    + replace (Z.to_nat (k - idx)) with (S (Z.to_nat (k - (idx + 1))))
        by lia.
      rewrite Hd by lia. reflexivity.
    + assert (k = idx) as -> by lia.
      replace (Z.to_nat (idx - idx)) with 0%nat by lia.
      change ((url :: rest) !! 0%nat) with (Some url). clear Hd.
      cbv beta iota.
      destruct (answers_200 url) eqn:Ha; [apply lookup_insert_eq|reflexivity].
    + apply Hd. lia.
Qed.

Lemma elem_of_py_range n k : k ∈ py_range n <-> 0 <= k < n.
Proof.
  unfold py_range. rewrite list_elem_of_In, in_map_iff. split.
  - intros (j & <- & Hj). apply in_seq in Hj. lia.
  - intros Hk. exists (Z.to_nat k). split; [lia|]. apply in_seq. lia.
Qed.

(** X23. Local cameras: every index below [max_test] is in the result
    exactly when its capture could be constructed and is opened, under the
    name [Local Camera i]; probing the phone URLs never disturbs these
    entries. *)
Theorem local_camera_listed max_test urls i :
  0 <= i < max_test ->
  (detect_cameras max_test urls).1 !! i =
    if opens i then Some (local_name i) else None.
Proof.
  intros Hi. unfold detect_cameras.
  pose proof (probe_local_lookup (py_range max_test) ∅ i) as Hl.
  destruct (probe_local (py_range max_test) ∅) as [d calls].
  cbn [fst] in Hl.
  destruct (decide (i ∈ py_range max_test)) as [_|Hout];
    [|exfalso; apply Hout, elem_of_py_range, Hi].
  rewrite lookup_empty in Hl.
  destruct urls as [[|url rest]|]; try exact Hl.
  pose proof (probe_mobile_lookup (url :: rest) max_test d i) as Hm.
  destruct (probe_mobile max_test (url :: rest) d) as [d2 more].
  cbn [fst] in *. rewrite Hm.
  destruct (decide (max_test <= i)); [lia|exact Hl].
Qed.

(** X24. Phone cameras: the j-th URL is listed under the key
    [max_test + j], and only if its GET answered with status 200; a URL
    that times out, raises or answers anything else is left out. *)
Theorem mobile_camera_listed max_test (urls : list string) (j : nat) url :
  urls !! j = Some url ->
  (detect_cameras max_test (Some urls)).1 !! (max_test + Z.of_nat j) =
    if answers_200 url then Some (mobile_name url) else None.
Proof.
  intros Hj. unfold detect_cameras.
  pose proof (probe_local_lookup (py_range max_test) ∅
                (max_test + Z.of_nat j)) as Hl.
  destruct (probe_local (py_range max_test) ∅) as [d calls].
  cbn [fst] in Hl.
  destruct (decide (max_test + Z.of_nat j ∈ py_range max_test)) as [Hin|_];
    [apply elem_of_py_range in Hin; lia|].
  rewrite lookup_empty in Hl.
  destruct urls as [|u rest]; [discriminate|].
  pose proof (probe_mobile_lookup (u :: rest) max_test d
                (max_test + Z.of_nat j)) as Hm.
  destruct (probe_mobile max_test (u :: rest) d) as [d2 more].
  cbn [fst] in *. rewrite Hm.
  destruct (decide (max_test <= max_test + Z.of_nat j)); [|lia].
  replace (Z.to_nat (max_test + Z.of_nat j - max_test)) with j by lia.
  rewrite Hj, Hl. reflexivity.
Qed.

(** At most one capture is held before, between and after the calls, and
    none at the end. *)
Fixpoint one_at_a_time (held : gset Z) (calls : list ProbeCall) : Prop :=
  match calls with
  | [] => held = ∅
  | c :: calls => (size held <= 1)%nat /\ one_at_a_time (hold held c) calls
  end.

Lemma size_le_one_empty : (size (∅ : gset Z) <= 1)%nat.
Proof. rewrite size_empty. lia. Qed.

Lemma size_le_one_single (i : Z) : (size ({[i]} ∪ ∅ : gset Z) <= 1)%nat.
Proof.
  replace ({[i]} ∪ ∅ : gset Z) with ({[i]} : gset Z) by set_solver.
  rewrite size_singleton. lia.
Qed.

Lemma released_again (i : Z) : (({[i]} ∪ ∅) ∖ {[i]} : gset Z) = ∅.
Proof. set_solver. Qed.

Lemma probe_local_holds indices : forall d,
  one_at_a_time ∅ (probe_local indices d).2.
Proof.
  induction indices as [|i rest IH]; intros d; [reflexivity|].
  cbn [probe_local].
  destruct (video_capture i) as [[|]|e];
    match goal with
    | |- context [probe_local rest ?d'] =>
      specialize (IH d'); destruct (probe_local rest d') as [d2 more]
    end; cbn [snd app one_at_a_time hold] in *;
    rewrite ?released_again;
    repeat split; auto using size_le_one_empty, size_le_one_single.
Qed.

Lemma one_at_a_time_prefix cs : forall held p,
  one_at_a_time held cs -> p `prefix_of` cs ->
  (size (fold_left hold p held) <= 1)%nat.
Proof.
  induction cs as [|c cs IH]; intros held p H Hp.
  - apply prefix_nil_inv in Hp. subst p. cbn in H. subst held.
    apply size_le_one_empty.
  - destruct H as [H0 H]. destruct p as [|c' p]; [exact H0|].
    pose proof (prefix_cons_inv_1 _ _ _ _ Hp) as ->.
    apply prefix_cons_inv_2 in Hp. cbn [fold_left]. apply IH; assumption.
Qed.

Lemma one_at_a_time_end cs : forall held,
  one_at_a_time held cs -> fold_left hold cs held = ∅.
Proof.
  induction cs as [|c cs IH]; intros held H; [exact H|].
  destruct H as [_ H]. cbn [fold_left]. apply IH, H.
Qed.

Lemma probe_mobile_holds urls : forall idx d,
  one_at_a_time ∅ (probe_mobile idx urls d).2.
Proof.
  induction urls as [|url rest IH]; intros idx d; [reflexivity|].
  cbn [probe_mobile].
  match goal with
  | |- context [probe_mobile (idx + 1) rest ?d'] =>
    specialize (IH (idx + 1) d');
    destruct (probe_mobile (idx + 1) rest d') as [d2 more]
  end.
  cbn [snd one_at_a_time hold] in *.
  split; [apply size_le_one_empty|exact IH].
Qed.

Lemma one_at_a_time_then cs : forall held more,
  one_at_a_time held cs -> one_at_a_time ∅ more ->
  one_at_a_time held (cs ++ more).
Proof.
  induction cs as [|c cs IH]; intros held more H Hm.
  - cbn in H. subst held. exact Hm.
  - destruct H as [H0 H]. split; [exact H0|]. apply IH; assumption.
Qed.

(** X25. [detect_cameras] holds at most one capture at any moment and
    none when it returns: each capture it managed to construct is
    released before the next index is tried, opened or not. *)
Theorem probing_leaves_no_capture max_test urls :
  (forall p, p `prefix_of` (detect_cameras max_test urls).2 ->
     (size (fold_left hold p ∅) <= 1)%nat)
  /\ fold_left hold (detect_cameras max_test urls).2 ∅ = ∅.
Proof.
  assert (H : one_at_a_time ∅ (detect_cameras max_test urls).2).
  { unfold detect_cameras.
    pose proof (probe_local_holds (py_range max_test) ∅) as Hl.
    destruct (probe_local (py_range max_test) ∅) as [d calls].
    cbn [snd] in Hl.
    destruct urls as [[|url rest]|]; try exact Hl.
    pose proof (probe_mobile_holds (url :: rest) max_test d) as Hm.
    destruct (probe_mobile max_test (url :: rest) d) as [d2 more].
    cbn [snd] in *. apply one_at_a_time_then; assumption. }
  split.
  - intros p Hp. eapply one_at_a_time_prefix; eassumption.
  - apply one_at_a_time_end, H.
Qed.

End Probe.

(** X26. Whatever text the resolution box holds, the size taken is one of
    the three supported ones, and a name that is not a key of the table
    falls back to 640x480. *)
Theorem resolution_is_supported (res_name : string) :
  (res_name <> "480P" -> res_name <> "720P" -> res_name <> "1080P" ->
   on_resolution_change res_name = (640, 480))
  /\ (on_resolution_change res_name = (640, 480)
      \/ on_resolution_change res_name = (1280, 720)
      \/ on_resolution_change res_name = (1920, 1080)).
Proof.
  unfold on_resolution_change, SUPPORTED_RESOLUTIONS.
  destruct (decide (res_name = "480P")) as [->|H1];
    [split; [congruence|left; reflexivity]|].
  destruct (decide (res_name = "720P")) as [->|H2];
    [split; [congruence|right; left; reflexivity]|].
  destruct (decide (res_name = "1080P")) as [->|H3];
    [split; [congruence|right; right; reflexivity]|].
  rewrite !lookup_insert_ne, lookup_empty by congruence.
  split; [reflexivity|left; reflexivity].
Qed.

(** Two cameras, the first of which opens; one phone that answers. *)
Definition two_cameras (i : Z) : Res bool :=
  if i =? 0 then Ok true
  else if i =? 1 then Ok false
  else Raise (ExternalError "no device").

Definition one_phone (url : string) : Res Z :=
  if String.eqb url "http://phone/video" then Ok 200 else Ok 404.

Example detect_cameras_run :
  detect_cameras two_cameras one_phone 3
    (Some ["http://phone/video"; "http://other/video"])
  = (<[0 := "Local Camera 0"]> (<[3 := "Mobile Camera http://phone/video"]> ∅),
     [Constructed 0 true; Released 0; Constructed 1 false; Released 1;
      ConstructFailed 2; HttpGet "http://phone/video";
      HttpGet "http://other/video"]).
Proof. vm_compute. reflexivity. Qed.

Lemma local_camera_listed_witness :
  (detect_cameras two_cameras one_phone 3 None).1 !! 0 =
    if opens two_cameras 0 then Some (local_name 0) else None.
Proof.
  apply (local_camera_listed two_cameras one_phone 3 None 0). lia.
Defined.

Lemma mobile_camera_listed_witness :
  (detect_cameras two_cameras one_phone 3
     (Some ["http://phone/video"])).1 !! (3 + Z.of_nat 0) =
    if answers_200 one_phone "http://phone/video"
    then Some (mobile_name "http://phone/video") else None.
Proof.
  apply (mobile_camera_listed two_cameras one_phone 3
           ["http://phone/video"] 0 "http://phone/video").
  reflexivity.
Defined.

End Utils.


(** ** main_window.py: format conversion *)

Module Convert.

Local Open Scope nat_scope.

Inductive Fourcc := XVID | mp4v.

(** What the source file is to [cv2.VideoCapture]. *)
Record Video := mkVideo {
  video_fps : Q;
  video_width : Z;
  video_height : Z;
  video_frames : list ndarray
}.

Inductive ConvCall :=
| SrcOpen (path : string)
| OutOpen (path : string) (codec : Fourcc) (fps : Q) (width height : Z)
| SrcRead (ret : bool)
| OutWrite (frame : ndarray)
| SrcRelease
| OutRelease
| ReportSuccess (path : string)
| ReportFailure (e : PyExn).

Section Files.

(** [cv2.VideoCapture(path)]: the video, or nothing when it cannot be
    opened. *)
Variable decode : string -> option Video.
(** Whether [cv2.VideoWriter(...)] raises. *)
Variable writer_raises : option PyExn.
(** Whether the k-th [out.write] raises. *)
Variable write_raises : nat -> option PyExn.

(** The [while cap.isOpened()] loop from the k-th frame on: [None] when it
    ran to the end of the source, the exception otherwise. *)
Fixpoint copy_frames (k : nat) (frames : list ndarray)
    : option PyExn * list ConvCall :=
  match frames with
  | [] => (None, [SrcRead false])
  | frame :: rest =>
    match write_raises k with
    | Some e => (Some e, [SrcRead true; OutWrite frame])
    | None =>
      let '(raised, calls) := copy_frames (S k) rest in
      (raised, SrcRead true :: OutWrite frame :: calls)
    end
  end.

(** [convert_format]; the two paths are what the dialogs return, empty
    when the user cancels. *)
Definition convert_format (filePath outputFilePath targetFormat : string)
    : list ConvCall :=
  if String.eqb filePath "" then []
  else if String.eqb outputFilePath "" then []
  else
    let source := decode filePath in
    let fourcc := if String.eqb targetFormat "avi" then XVID else mp4v in
    let fps := match source with Some v => video_fps v | None => 0%Q end in
    let width := match source with Some v => video_width v | None => 0%Z end in
    let height := match source with Some v => video_height v | None => 0%Z end in
    let opened := [SrcOpen filePath] in
    match writer_raises with
    | Some e => opened ++ [ReportFailure e]
    | None =>
      let opened :=
        opened ++ [OutOpen outputFilePath fourcc fps width height] in
      let '(raised, copied) :=
        match source with
        | Some v => copy_frames 0 (video_frames v)
        | None => (None, [])
        end in
      match raised with
      | Some e => opened ++ copied ++ [ReportFailure e]
      | None =>
        opened ++ copied
        ++ [SrcRelease; OutRelease; ReportSuccess outputFilePath]
      end
    end.

(** Frames handed to [out.write], in order. *)
Fixpoint written (calls : list ConvCall) : list ndarray :=
  match calls with
  | [] => []
  | OutWrite frame :: calls => frame :: written calls
  | _ :: calls => written calls
  end.

Definition is_release (c : ConvCall) : bool :=
  match c with
  | SrcRelease | OutRelease => true
  | _ => false
  end.

Lemma written_app a : forall b, written (a ++ b) = written a ++ written b.
Proof. induction a as [|[] a IH]; intros b; simpl; rewrite ?IH; auto. Qed.

Lemma copy_frames_clean frames : forall k,
  (forall j, write_raises j = None) ->
  (copy_frames k frames).1 = None
  /\ written (copy_frames k frames).2 = frames
  /\ List.filter is_release (copy_frames k frames).2 = [].
Proof.
  induction frames as [|frame rest IH]; intros k Hw; simpl; [auto|].
  rewrite Hw. specialize (IH (S k) Hw).
  destruct (copy_frames (S k) rest) as [raised calls]. simpl in *.
  destruct IH as (H1 & H2 & H3). rewrite H2. auto.
Qed.

Lemma copy_frames_raise frames : forall k n e,
  (forall j, j < n -> write_raises (k + j) = None) ->
  write_raises (k + n) = Some e ->
  n < length frames ->
  (copy_frames k frames).1 = Some e
  /\ written (copy_frames k frames).2 = take (S n) frames
  /\ List.filter is_release (copy_frames k frames).2 = [].
Proof.
  induction frames as [|frame rest IH]; intros k n e Hbefore Hn Hlen;
    simpl in *; [lia|].
  destruct n as [|n].
  - rewrite Nat.add_0_r in Hn. rewrite Hn. simpl. rewrite take_0. auto.
  - rewrite (eq_trans (f_equal write_raises (eq_sym (Nat.add_0_r k)))
                      (Hbefore 0 ltac:(lia))).
    destruct (IH (S k) n e) as (H1 & H2 & H3).
    + intros j Hj. replace (S k + j) with (k + S j) by lia.
      apply Hbefore. lia.
    + replace (S k + n) with (k + S n) by lia. exact Hn.
    + lia.
    + destruct (copy_frames (S k) rest) as [raised calls]. simpl in *.
      rewrite H2. auto.
Qed.

(** X27. When no write and no constructor raises, [convert_format] hands
    every frame of the source to the writer, in order and once, releases
    the source and the writer, and then reports success.  A source that
    cannot be opened counts as an empty one: success is reported and
    nothing was written. *)
Theorem conversion_copies_every_frame filePath outputFilePath targetFormat :
  filePath <> "" -> outputFilePath <> "" ->
  writer_raises = None -> (forall j, write_raises j = None) ->
  let calls := convert_format filePath outputFilePath targetFormat in
  written calls = match decode filePath with
                  | Some v => video_frames v
                  | None => []
                  end
  /\ exists before,
       calls = before ++ [SrcRelease; OutRelease; ReportSuccess outputFilePath]
       /\ List.filter is_release before = [].
Proof.
  intros Hf Ho Hctor Hw. unfold convert_format.
  destruct (String.eqb_spec filePath "") as [->|_]; [contradiction|].
  destruct (String.eqb_spec outputFilePath "") as [->|_]; [contradiction|].
  rewrite Hctor.
  destruct (decode filePath) as [v|]; simpl.
  - destruct (copy_frames_clean (video_frames v) 0 Hw) as (H1 & H2 & H3).
    destruct (copy_frames 0 (video_frames v)) as [raised calls].
    simpl in *. subst raised. simpl. split.
    + rewrite written_app, H2. simpl. apply app_nil_r.
    + eexists (SrcOpen filePath :: OutOpen _ _ _ _ _ :: calls).
      split; [reflexivity|]. simpl. exact H3.
  - split; [reflexivity|].
    eexists [SrcOpen filePath; OutOpen _ _ _ _ _]. split; reflexivity.
Qed.

(** X28. When the write of frame n raises, the frames before it and
    frame n itself have been handed to the writer and no later one; the
    failure is reported, and neither the source nor the writer is
    released. *)
Theorem failed_write_releases_nothing filePath outputFilePath targetFormat
    v n e :
  filePath <> "" -> outputFilePath <> "" ->
  writer_raises = None ->
  decode filePath = Some v ->
  (forall j, j < n -> write_raises j = None) ->
  write_raises n = Some e ->
  n < length (video_frames v) ->
  let calls := convert_format filePath outputFilePath targetFormat in
  written calls = take (S n) (video_frames v)
  /\ last calls = Some (ReportFailure e)
  /\ List.filter is_release calls = [].
Proof.
  intros Hf Ho Hctor Hd Hbefore Hn Hlen. unfold convert_format.
  destruct (String.eqb_spec filePath "") as [->|_]; [contradiction|].
  destruct (String.eqb_spec outputFilePath "") as [->|_]; [contradiction|].
  rewrite Hctor, Hd.
  destruct (copy_frames_raise (video_frames v) 0 n e Hbefore Hn Hlen)
    as (H1 & H2 & H3).
  destruct (copy_frames 0 (video_frames v)) as [raised calls].
  simpl in *. subst raised. simpl. repeat split.
  - rewrite written_app, H2. simpl. apply app_nil_r.
  - rewrite !app_comm_cons. apply last_snoc.
  - rewrite List.filter_app, H3. reflexivity.
Qed.

End Files.

Definition clip (path : string) : option Video :=
  Some (mkVideo (30 # 1) 640 480
          [Ndarray 480 640 [1%Z]; Ndarray 480 640 [2%Z]; Ndarray 480 640 [3%Z]]).

Definition second_write_fails (k : nat) : option PyExn :=
  if (k =? 1)%nat then Some (ExternalError "disk full") else None.

Example conversion_run :
  convert_format clip None (fun _ => None) "in.mp4" "out.avi" "avi"
  = [SrcOpen "in.mp4"; OutOpen "out.avi" XVID (30 # 1) 640 480;
     SrcRead true; OutWrite (Ndarray 480 640 [1%Z]);
     SrcRead true; OutWrite (Ndarray 480 640 [2%Z]);
     SrcRead true; OutWrite (Ndarray 480 640 [3%Z]);
     SrcRead false; SrcRelease; OutRelease; ReportSuccess "out.avi"].
Proof. reflexivity. Qed.

Lemma conversion_copies_every_frame_witness :
  let calls := convert_format clip None (fun _ => None)
                 "in.mp4" "out.avi" "avi" in
  written calls = match clip "in.mp4" with
                  | Some v => video_frames v
                  | None => []
                  end
  /\ exists before,
       calls = before ++ [SrcRelease; OutRelease; ReportSuccess "out.avi"]
       /\ List.filter is_release before = [].
Proof.
  apply (conversion_copies_every_frame clip None (fun _ => None)
           "in.mp4" "out.avi" "avi"); try discriminate; reflexivity.
Defined.

Lemma failed_write_releases_nothing_witness :
  let calls := convert_format clip None second_write_fails
                 "in.mp4" "out.mp4" "mp4" in
  written calls = take 2 [Ndarray 480 640 [1%Z]; Ndarray 480 640 [2%Z];
                          Ndarray 480 640 [3%Z]]
  /\ last calls = Some (ReportFailure (ExternalError "disk full"))
  /\ List.filter is_release calls = [].
Proof.
  apply (failed_write_releases_nothing clip None second_write_fails
           "in.mp4" "out.mp4" "mp4"
           (mkVideo (30 # 1) 640 480
              [Ndarray 480 640 [1%Z]; Ndarray 480 640 [2%Z];
               Ndarray 480 640 [3%Z]])
           1 (ExternalError "disk full"));
    try discriminate; try reflexivity.
  - intros j Hj. destruct j; [reflexivity|lia].
  - simpl. lia.
Defined.

End Convert.
